(** * Upload and mock-analysis session of src/App.tsx

  A shallow embedding of the state and the event handlers of the [App]
  component: the five pieces of React state that make up the session
  (model, image, isAnalyzing, result, error), the handlers that update
  them, and the parts of the browser the handlers talk to (object URLs,
  the timer behind the awaited promise, [Math.random], the clock).

  Numbers.  A JavaScript Number is an IEEE-754 binary64 value.  The ones
  the session computes with are finite and non-negative, and are
  modelled by module [Binary64] as integers counting units of
  [2^-1074], with round-to-nearest-even written out. *)

From Stdlib Require Import ZArith Lia Bool List Ascii String.
From stdpp Require Import base option list strings gmap pretty.

Local Open Scope Z_scope.

(** ** Binary64 arithmetic on non-negative finite values *)

Module Binary64.

(** A finite non-negative double is [n * 2^-1074] for an integer [n]
    whose significant bits fit in 53 positions; [2^-1074] is the least
    positive subnormal, so every such double is a whole number of
    units. *)
Definition unit_exp : Z := 1074.

(** The Number 1. *)
Definition one : Z := 2 ^ unit_exp.

(** Exponent of the unit in the last place of the binade of [q]:
    53 significant bits above [2^52] units, one unit below (the
    subnormal range). *)
Definition ulp_exp (q : Z) : Z := Z.max (Z.log2 q - 52) 0.

(** Nearest integer to [num / den], ties to the even one. *)
Definition nearest_even (num den : Z) : Z :=
  let m := num / den in
  let r := num mod den in
  if 2 * r <? den then m
  else if den <? 2 * r then m + 1
  else if Z.even m then m else m + 1.

(** [round num den] is the double nearest to the exact value
    [num / den] (in units), ties to even: IEEE-754 roundTiesToEven,
    below the overflow threshold. *)
Definition round (num den : Z) : Z :=
  let u := ulp_exp (num / den) in
  nearest_even num (den * 2 ^ u) * 2 ^ u.

(** The values that are doubles. *)
Definition is_double (x : Z) : Prop := 0 <= x /\ round x 1 = x.

(** [x + y] and [x * y] of JavaScript: the exact result, rounded. *)
Definition add (x y : Z) : Z := round (x + y) 1.
Definition mul (x y : Z) : Z := round (x * y) one.

(** The Number a decimal literal [p / q] denotes. *)
Definition lit (p q : Z) : Z := round (p * one) q.

(** Comparison [x > y] of JavaScript. *)
Definition gt (x y : Z) : bool := y <? x.

End Binary64.

(** ** Strings and number formatting of JavaScript *)

Module JS.

(** [String.prototype.toLowerCase] on the 8-bit strings file names and
    MIME types are modelled by: the letters A..Z map to a..z, every other
    character is kept. *)
Definition lower (c : ascii) : ascii :=
  let n := N_of_ascii c in
  if ((65 <=? n) && (n <=? 90))%N then ascii_of_N (n + 32) else c.

Fixpoint toLowerCase (s : string) : string :=
  match s with
  | EmptyString => EmptyString
  | String c t => String (lower c) (toLowerCase t)
  end.

(** [s.endsWith(search)]: with [start = s.length - search.length], false
    when [start < 0], else whether the code units of [s] from [start] are
    those of [search]. *)
Definition endsWith (s search : string) : bool :=
  let start := Z.of_nat (String.length s) - Z.of_nat (String.length search) in
  if start <? 0 then false
  else String.eqb
         (String.substring (Z.to_nat start) (String.length search) s) search.

(** [s.startsWith(search)], at position 0. *)
Definition startsWith (s search : string) : bool :=
  if Z.of_nat (String.length s) <? Z.of_nat (String.length search) then false
  else String.eqb (String.substring 0 (String.length search) s) search.

(** [Math.floor(Math.log(bytes) / Math.log(k))] for [k = 1024] and an
    integer [bytes >= 1]: the exponent of the largest power of 1024 not
    above [bytes].  (The floating-point quotient of logarithms is taken
    to give this exact integer, as it does for the sizes up to [1024^4]
    that the properties below range over; close below larger powers of
    1024 the rounded quotient can already be the next integer.) *)
Definition floor_log1024 (bytes : Z) : Z := Z.log2 bytes / 10.

(** [x.toFixed(2)] for the exact value [x = num / den >= 0]: the integer
    [n] with [n / 100] nearest to [x], the larger one on a tie; the
    string is [n / 100] written with exactly two fraction digits.  The
    result is kept as [n], the number of hundredths. *)
Definition toFixed2 (num den : Z) : Z := (200 * num + den) / (2 * den).

Definition digit (d : Z) : string := pretty d.

(** [parseFloat(t) + ''] for the two-digit decimal [t = n / 100]:
    reading the decimal and printing the Number again gives the shortest
    decimal denoting it, which is [n / 100] without trailing zeros (and
    without the point when the fraction is zero). *)
Definition showHundredths (n : Z) : string :=
  let f := n mod 100 in
  pretty (n / 100) ++
  (if f =? 0 then ""
   else "." ++ digit (f / 10) ++ (if f mod 10 =? 0 then "" else digit (f mod 10))).

(** [arr[i]] used as a string operand of [+]: an index outside the array
    reads [undefined], which concatenates as the text "undefined". *)
Definition index_text (arr : list string) (i : Z) : string :=
  if i <? 0 then "undefined"
  else default "undefined" (arr !! Z.to_nat i).

End JS.

(** ** Data model (the three interfaces of App.tsx and the DOM [File]) *)

Module File.
Record t := { name : string; size : Z; type : string }.
End File.

(** An object URL handed out by [URL.createObjectURL]. *)
Definition objectURL := nat.

Module UploadedModel.
Record t := { file : File.t; name : string; size : string; uploadedAt : Z }.
End UploadedModel.

Module UploadedImage.
Record t := { file : File.t; url : objectURL; name : string; size : string }.
End UploadedImage.

Module AnalysisResult.
Record t := {
  isOriginal : bool;
  confidence : Z;
  processedImageUrl : option string;
  processingTime : Z
}.
End AnalysisResult.

(** The session: the React state of [App] that the handlers read and
    write ([dragOver] and [showResult] only drive the presentation). *)
Record State := {
  model : option UploadedModel.t;
  image : option UploadedImage.t;
  isAnalyzing : bool;
  result : option AnalysisResult.t;
  error : option string
}.

(** A run of [runAnalysis] suspended at its [await]: the delay its timer
    was armed with, and the [model] and [image] its closure captured when
    it started. *)
Record Analysis := {
  delay : Z;
  seen_model : option UploadedModel.t;
  seen_image : option UploadedImage.t
}.

(** The session inside its browser: the object URLs that are alive, the
    log of [URL.revokeObjectURL] calls (latest first), the next URL to
    hand out, the suspended analysis runs, the source of [Math.random]
    with the number of draws made, and the clock.  [origin] is a history
    variable no handler reads: the run that produced the stored result. *)
Record World := {
  state : State;
  live : gset objectURL;
  revoked : list objectURL;
  next_url : objectURL;
  timers : list Analysis;
  random : nat -> Z;
  draws : nat;
  clock : Z;
  origin : option Analysis
}.

(** ** Handlers as computations on the world *)

(** How a block of statements ends: normally with a value, or by a
    thrown exception (a rejected [await] throws into the enclosing
    [try]). *)
Inductive completion (A : Type) : Type :=
| Normal (a : A)
| Throw (reason : string).
Arguments Normal {A} a.
Arguments Throw {A} reason.

Definition M (A : Type) : Type := World -> completion A * World.

#[global] Instance M_ret : MRet M := fun A a w => (Normal a, w).

#[global] Instance M_bind : MBind M := fun A B k m w =>
  match m w with
  | (Normal a, w') => k a w'
  | (Throw e, w') => (Throw e, w')
  end.

Definition throw {A} (e : string) : M A := fun w => (Throw e, w).

(** [try { body } catch (err) { handler }] *)
Definition try_catch {A} (body : M A) (handler : string -> M A) : M A :=
  fun w =>
    match body w with
    | (Normal a, w') => (Normal a, w')
    | (Throw e, w') => handler e w'
    end.

(** [try { body } finally { fin }]: [fin] runs however [body] ends, and
    the way [body] ended is the way the whole statement ends unless
    [fin] itself throws. *)
Definition try_finally {A} (body : M A) (fin : M unit) : M A :=
  fun w =>
    match body w with
    | (c, w') =>
        match fin w' with
        | (Normal _, w'') => (c, w'')
        | (Throw e, w'') => (Throw e, w'')
        end
    end.

(** The world a handler leaves behind. *)
Definition exec {A} (m : M A) (w : World) : World := snd (m w).

(** *** React state: the closure's view and the setters *)

Definition on_state (f : State -> State) : M unit :=
  fun w =>
    (Normal tt,
     {| state := f (state w); live := live w; revoked := revoked w;
        next_url := next_url w; timers := timers w; random := random w;
        draws := draws w; clock := clock w; origin := origin w |}).

(** The values of the state variables the running handler closed over.
    An event runs the handler of the current render, whose closure holds
    the current state; a handler is not modelled as called twice from
    one render. *)
Definition useState : M State := fun w => (Normal (state w), w).

Definition setModel (v : option UploadedModel.t) : M unit :=
  on_state (fun s =>
    {| model := v; image := image s; isAnalyzing := isAnalyzing s;
       result := result s; error := error s |}).

Definition setImage (v : option UploadedImage.t) : M unit :=
  on_state (fun s =>
    {| model := model s; image := v; isAnalyzing := isAnalyzing s;
       result := result s; error := error s |}).

Definition setIsAnalyzing (v : bool) : M unit :=
  on_state (fun s =>
    {| model := model s; image := image s; isAnalyzing := v;
       result := result s; error := error s |}).

Definition setResult (v : option AnalysisResult.t) : M unit :=
  on_state (fun s =>
    {| model := model s; image := image s; isAnalyzing := isAnalyzing s;
       result := v; error := error s |}).

Definition setError (v : option string) : M unit :=
  on_state (fun s =>
    {| model := model s; image := image s; isAnalyzing := isAnalyzing s;
       result := result s; error := v |}).

(** *** Browser services *)

(** [URL.createObjectURL(file)]: a URL never handed out before, alive
    until revoked. *)
Definition createObjectURL (f : File.t) : M objectURL :=
  fun w =>
    (Normal (next_url w),
     {| state := state w; live := {[ next_url w ]} ∪ live w;
        revoked := revoked w; next_url := S (next_url w);
        timers := timers w; random := random w; draws := draws w;
        clock := clock w; origin := origin w |}).

(** [URL.revokeObjectURL(u)]: [u] is no longer alive; the call is
    logged. *)
Definition revokeObjectURL (u : objectURL) : M unit :=
  fun w =>
    (Normal tt,
     {| state := state w; live := live w ∖ {[ u ]};
        revoked := u :: revoked w; next_url := next_url w;
        timers := timers w; random := random w; draws := draws w;
        clock := clock w; origin := origin w |}).

(** [Math.random()]: the next draw of the source. *)
Definition Math_random : M Z :=
  fun w =>
    (Normal (random w (draws w)),
     {| state := state w; live := live w; revoked := revoked w;
        next_url := next_url w; timers := timers w; random := random w;
        draws := S (draws w); clock := clock w; origin := origin w |}).

(** [new Date()], as milliseconds. *)
Definition Date_now : M Z := fun w => (Normal (clock w), w).

(** [await new Promise(resolve => setTimeout(resolve, ms))]: the run is
    parked with its timer until the promise settles. *)
Definition suspend (a : Analysis) : M unit :=
  fun w =>
    (Normal tt,
     {| state := state w; live := live w; revoked := revoked w;
        next_url := next_url w; timers := timers w ++ [a];
        random := random w; draws := draws w; clock := clock w;
        origin := origin w |}).

(** ** The component's functions *)

(** [!v] for a state variable that holds an object or [null]. *)
Definition absent {A} (v : option A) : bool :=
  match v with
  | Some _ => false
  | None => true
  end.

Definition sizes : list string := ["Bytes"; "KB"; "MB"; "GB"].

(** [formatFileSize], for the sizes a [File] reports (integers
    [bytes >= 0] that a Number holds exactly; the division by a power of
    1024 is then exact). *)
Definition formatFileSize (bytes : Z) : string :=
  if bytes =? 0 then "0 Bytes"
  else
    let k := 1024 in
    let i := JS.floor_log1024 bytes in
    (JS.showHundredths (JS.toFixed2 bytes (k ^ i)) +:+ " " +:+ JS.index_text sizes i)%string.

Definition handleModelUpload (file : File.t) : M unit :=
  if negb (JS.endsWith (JS.toLowerCase (File.name file)) ".pt") then
    setError (Some "Please upload a valid PyTorch model file (.pt)")
  else
    now ← Date_now;
    setModel (Some {| UploadedModel.file := file;
                      UploadedModel.name := File.name file;
                      UploadedModel.size := formatFileSize (File.size file);
                      UploadedModel.uploadedAt := now |});;
    setError None.

Definition handleImageUpload (file : File.t) : M unit :=
  if negb (JS.startsWith (File.type file) "image/") then
    setError (Some "Please upload a valid image file")
  else
    url ← createObjectURL file;
    setImage (Some {| UploadedImage.file := file;
                      UploadedImage.url := url;
                      UploadedImage.name := File.name file;
                      UploadedImage.size := formatFileSize (File.size file) |});;
    setError None;;
    setResult None.

(** The Number literals of [runAnalysis]. *)
Definition n2000 : Z := Binary64.lit 2000 1.
Definition n3000 : Z := Binary64.lit 3000 1.
Definition n0_5 : Z := Binary64.lit 5 10.
Definition n0_75 : Z := Binary64.lit 75 100.
Definition n0_24 : Z := Binary64.lit 24 100.
Definition n1_2 : Z := Binary64.lit 12 10.
Definition n2_3 : Z := Binary64.lit 23 10.

(** [runAnalysis] up to its [await]: the guard, the three state updates,
    and the timer armed with [2000 + Math.random() * 3000]. *)
Definition runAnalysis : M unit :=
  s ← useState;
  if absent (model s) || absent (image s) then mret tt
  else
    setIsAnalyzing true;;
    setError None;;
    setResult None;;
    r ← Math_random;
    suspend {| delay := Binary64.add n2000 (Binary64.mul r n3000);
               seen_model := model s;
               seen_image := image s |}.

(** How the awaited promise settled.  The promise of [runAnalysis] is
    only ever resolved by its timer; [Rejected] is the failure the
    [catch] block is written for. *)
Inductive settlement := Fulfilled | Rejected (reason : string).

Definition await (o : settlement) : M unit :=
  match o with
  | Fulfilled => mret tt
  | Rejected e => throw e
  end.

(** The object literal [mockResult]: three draws, in field order. *)
Definition mockResult : M AnalysisResult.t :=
  r1 ← Math_random;
  r2 ← Math_random;
  r3 ← Math_random;
  mret {| AnalysisResult.isOriginal := Binary64.gt r1 n0_5;
          AnalysisResult.confidence := Binary64.add n0_75 (Binary64.mul r2 n0_24);
          AnalysisResult.processedImageUrl := None;
          AnalysisResult.processingTime := Binary64.add n1_2 (Binary64.mul r3 n2_3) |}.

(** [runAnalysis] from its [await] on, once the promise has settled:
    the rest of the [try] block, the [catch] and the [finally]. *)
Definition resumeAnalysis (o : settlement) : M unit :=
  try_finally
    (try_catch
       (await o;;
        r ← mockResult;
        setResult (Some r))
       (fun _ => setError (Some "Analysis failed. Please try again.")))
    (setIsAnalyzing false).

(** [clearModel] and [clearImage].  Each also resets its file input when
    that input is mounted, which touches no state of the session. *)
Definition clearModel : M unit :=
  setModel None;;
  setResult None.

Definition clearImage : M unit :=
  s ← useState;
  match image s with
  | Some im => revokeObjectURL (UploadedImage.url im)
  | None => mret tt
  end;;
  setImage None;;
  setResult None.

(** ** The page: which handler each event runs, and when it can occur *)

Inductive event :=
| SubmitModel (file : File.t)      (* drop on, or choice in, the model zone *)
| SubmitImage (file : File.t)      (* drop on, or choice in, the image zone *)
| ClearModel                       (* the model's trash button *)
| ClearImage                       (* the image's trash button *)
| ClickAnalyze                     (* the analysis button *)
| DismissError                     (* the close button of the error alert *)
| Settle (k : nat) (o : settlement)  (* the promise of the k-th parked run settles *)
| Elapse (ms : Z).                 (* time passes *)

Definition with_timers (ts : list Analysis) (w : World) : World :=
  {| state := state w; live := live w; revoked := revoked w;
     next_url := next_url w; timers := ts; random := random w;
     draws := draws w; clock := clock w; origin := origin w |}.

Definition with_clock (t : Z) (w : World) : World :=
  {| state := state w; live := live w; revoked := revoked w;
     next_url := next_url w; timers := timers w; random := random w;
     draws := draws w; clock := t; origin := origin w |}.

Definition with_origin (o : option Analysis) (w : World) : World :=
  {| state := state w; live := live w; revoked := revoked w;
     next_url := next_url w; timers := timers w; random := random w;
     draws := draws w; clock := clock w; origin := o |}.

(** The code an event runs. *)
Definition handle (e : event) (w : World) : World :=
  match e with
  | SubmitModel file => exec (handleModelUpload file) w
  | SubmitImage file => exec (handleImageUpload file) w
  | ClearModel => exec clearModel w
  | ClearImage => exec clearImage w
  | ClickAnalyze => exec runAnalysis w
  | DismissError => exec (setError None) w
  | Settle k o =>
      match timers w !! k with
      | Some _ => exec (resumeAnalysis o) (with_timers (delete k (timers w)) w)
      | None => w
      end
  | Elapse ms => with_clock (clock w + ms) w
  end.

(** The history variable: the run whose settlement stored the result
    now present. *)
Definition track (e : event) (w w' : World) : option Analysis :=
  match result (state w') with
  | None => None
  | Some _ =>
      match e with
      | Settle k Fulfilled =>
          match timers w !! k with
          | Some a => Some a
          | None => origin w
          end
      | _ => origin w
      end
  end.

Definition step (e : event) (w : World) : World :=
  let w' := handle e w in with_origin (track e w w') w'.

(** What the rendered page lets happen: an upload zone is rendered only
    while its file is missing and a trash button only while it is there;
    the analysis button is [disabled={!model || !image || isAnalyzing}];
    the alert is rendered only while there is an error; a parked run
    resumes when its timer resolves its promise, which nothing
    rejects. *)
Definition enabled (e : event) (w : World) : bool :=
  let s := state w in
  match e with
  | SubmitModel _ => absent (model s)
  | SubmitImage _ => absent (image s)
  | ClearModel => negb (absent (model s))
  | ClearImage => negb (absent (image s))
  | ClickAnalyze =>
      negb (absent (model s) || absent (image s) || isAnalyzing s)
  | DismissError => negb (absent (error s))
  | Settle k Fulfilled => bool_decide (is_Some (timers w !! k))
  | Settle k (Rejected _) => false
  | Elapse ms => 0 <=? ms
  end.

(** The page after the component mounts. *)
Definition initial (rnd : nat -> Z) (t0 : Z) : World :=
  {| state := {| model := None; image := None; isAnalyzing := false;
                 result := None; error := None |};
     live := ∅; revoked := []; next_url := 0%nat; timers := [];
     random := rnd; draws := 0%nat; clock := t0; origin := None |}.

(** [Math.random] returns a Number in [[0, 1)]. *)
Definition unit_random (rnd : nat -> Z) : Prop :=
  forall n, Binary64.is_double (rnd n) /\ rnd n < Binary64.one.

(** The worlds a user can bring the page to. *)
Inductive reachable : World -> Prop :=
| reachable_initial rnd t0 :
    unit_random rnd -> reachable (initial rnd t0)
| reachable_step e w :
    reachable w -> enabled e w = true -> reachable (step e w).

(** Events applied in order, each only where the page allows it. *)
Fixpoint play (es : list event) (w : World) : World :=
  match es with
  | [] => w
  | e :: es' => play es' (if enabled e w then step e w else w)
  end.

(** ** Vocabulary of the properties *)

(** The name ends in ".pt", letter case ignored: its last three
    characters are a dot, a [p] or [P], and a [t] or [T]. *)
Definition pt_suffix (c1 c2 c3 : ascii) : Prop :=
  c1 = "."%char /\ (c2 = "p"%char \/ c2 = "P"%char) /\
  (c3 = "t"%char \/ c3 = "T"%char).

Definition ends_in_pt (name : string) : Prop :=
  exists (stem : string) (c1 c2 c3 : ascii),
    name = (stem +:+ String c1 (String c2 (String c3 EmptyString)))%string /\
    pt_suffix c1 c2 c3.

(** The declared content type begins with "image/". *)
Definition image_type (type : string) : Prop :=
  exists rest : string, type = ("image/" +:+ rest)%string.

(** The result a fulfilled run stores in world [w]: a function of the
    next three draws and of nothing else. *)
Definition drawn (w : World) : AnalysisResult.t :=
  {| AnalysisResult.isOriginal := Binary64.gt (random w (draws w)) n0_5;
     AnalysisResult.confidence :=
       Binary64.add n0_75 (Binary64.mul (random w (S (draws w))) n0_24);
     AnalysisResult.processedImageUrl := None;
     AnalysisResult.processingTime :=
       Binary64.add n1_2 (Binary64.mul (random w (S (S (draws w)))) n2_3) |}.

(** A run that found both a model and an image when it started. *)
Definition started_with_both (a : Analysis) : Prop :=
  is_Some (seen_model a) /\ is_Some (seen_image a).

(** The session invariant: every parked run started with both files; a
    stored result was produced by a run that started with both; the
    busy flag is up only while some run is parked. *)
Definition session_inv (w : World) : Prop :=
  Forall started_with_both (timers w) /\
  (forall r, result (state w) = Some r ->
     exists a, origin w = Some a /\ started_with_both a) /\
  (isAnalyzing (state w) = true -> timers w <> []).

(** Object URLs: no URL is revoked twice, every URL in use was handed
    out, no live URL has been revoked, and the preview of the stored
    image is alive. *)
Definition handles_inv (w : World) : Prop :=
  NoDup (revoked w) /\
  (forall u, u ∈ revoked w -> (u < next_url w)%nat) /\
  (forall u, u ∈ live w -> (u < next_url w)%nat /\ u ∉ revoked w) /\
  (forall im, image (state w) = Some im -> UploadedImage.url im ∈ live w).

(** No URL is kept alive but the preview of the stored image. *)
Definition no_leak (w : World) : Prop :=
  live w = match image (state w) with
           | Some im => {[ UploadedImage.url im ]}
           | None => ∅
           end.

(** The part of the world an upload that fails validation may touch is
    the error: everything else is as before. *)
Definition only_error_changed (w w' : World) : Prop :=
  model (state w') = model (state w) /\
  image (state w') = image (state w) /\
  result (state w') = result (state w) /\
  isAnalyzing (state w') = isAnalyzing (state w) /\
  live w' = live w /\ revoked w' = revoked w /\ next_url w' = next_url w /\
  timers w' = timers w /\ draws w' = draws w.

(** *** Sample inputs *)

Definition net_pt : File.t :=
  {| File.name := "net.pt"; File.size := 2048; File.type := "" |}.
Definition net_txt : File.t :=
  {| File.name := "net.txt"; File.size := 2048; File.type := "text/plain" |}.
Definition cat_png : File.t :=
  {| File.name := "cat.png"; File.size := 1536; File.type := "image/png" |}.
Definition dog_jpg : File.t :=
  {| File.name := "dog.jpg"; File.size := 1234567; File.type := "image/jpeg" |}.

(** A source of draws that are all the Number 0.5. *)
Definition halves : nat -> Z := fun _ => n0_5.

Definition fresh_page : World := initial halves 0.

(** Both files stored. *)
Definition ready_page : World :=
  play [SubmitModel net_pt; SubmitImage cat_png] fresh_page.

(** Both files stored and one analysis run parked at its [await]. *)
Definition busy_page : World := play [ClickAnalyze] ready_page.

(** The model cleared while the run was parked, and the run completed
    since. *)
Definition orphan_result_page : World :=
  play [ClearModel; Settle 0 Fulfilled] busy_page.

(** The image cleared while the run was parked; the run is still
    waiting. *)
Definition image_cleared_mid_run : World := play [ClearImage] busy_page.

(** ** Drag and drop, file inputs and the results panel *)

(** The two upload zones. *)
Inductive zone := ModelZone | ImageZone.

(** The page: the session in its browser, and the zone a drag is over
    (the [dragOver] state of [App]). *)
Record Page := {
  world : World;
  dragOver : option zone
}.

(** [handleDrop(e, type)] for a drop that carries [files]: the drag
    highlight is removed, and the first file, when there is one, goes to
    the handler of the zone. *)
Definition handleDrop (files : list File.t) (type : zone) (p : Page) : Page :=
  {| world :=
       match files with
       | file :: _ =>
           match type with
           | ModelZone => exec (handleModelUpload file) (world p)
           | ImageZone => exec (handleImageUpload file) (world p)
           end
       | [] => world p
       end;
     dragOver := None |}.

Definition handleDragOver (p : Page) : Page := p.

Definition handleDragEnter (type : zone) (p : Page) : Page :=
  {| world := world p; dragOver := Some type |}.

Definition handleDragLeave (p : Page) : Page :=
  {| world := world p; dragOver := None |}.

(** The [onChange] of a file input whose selection is [files]:
    [e.target.files?.[0] && handler(e.target.files[0])]. *)
Definition chooseFile (files : list File.t) (type : zone) (w : World) : World :=
  match files with
  | file :: _ =>
      match type with
      | ModelZone => exec (handleModelUpload file) w
      | ImageZone => exec (handleImageUpload file) w
      end
  | [] => w
  end.

(** The Number literal 100 of the results panel. *)
Definition n100 : Z := Binary64.lit 100 1.

(** [x.toFixed(1)] for a Number [x] (in units): the integer [n] with
    [n / 10] nearest to [x], the larger one on a tie, printed with one
    fraction digit; kept as [n], the number of tenths. *)
Definition toFixed1 (x : Z) : Z := (20 * x + Binary64.one) / (2 * Binary64.one).

(** [(result.confidence * 100).toFixed(1)], in tenths of a percent. *)
Definition confidenceShown (r : AnalysisResult.t) : Z :=
  toFixed1 (Binary64.mul (AnalysisResult.confidence r) n100).

(** [result.processingTime.toFixed(1)], in tenths of a second. *)
Definition processingTimeShown (r : AnalysisResult.t) : Z :=
  toFixed1 (AnalysisResult.processingTime r).

(** A result within the ranges of [mockResult]. *)
Definition result_in_range (r : AnalysisResult.t) : Prop :=
  n0_75 <= AnalysisResult.confidence r <= Binary64.lit 99 100 /\
  n1_2 <= AnalysisResult.processingTime r <= Binary64.lit 35 10.

(** A stored model or image is what its handler builds from a file that
    passes its validation. *)
Definition model_validated (m : UploadedModel.t) : Prop :=
  ends_in_pt (UploadedModel.name m) /\
  UploadedModel.name m = File.name (UploadedModel.file m) /\
  UploadedModel.size m = formatFileSize (File.size (UploadedModel.file m)).

Definition image_validated (im : UploadedImage.t) : Prop :=
  image_type (File.type (UploadedImage.file im)) /\
  UploadedImage.name im = File.name (UploadedImage.file im) /\
  UploadedImage.size im = formatFileSize (File.size (UploadedImage.file im)).

(** The two messages of the upload validation. *)
Definition validation_message (msg : string) : Prop :=
  msg = "Please upload a valid PyTorch model file (.pt)"%string \/
  msg = "Please upload a valid image file"%string.

(** * Properties *)

(** ** Rounding is monotone *)

Module Binary64Facts.
Import Binary64.

Lemma nearest_even_lower num den :
  0 < den -> num / den <= nearest_even num den.
Proof.
  intros Hd. unfold nearest_even.
  repeat match goal with |- context [if ?b then _ else _] => destruct b end; lia.
Qed.

Lemma nearest_even_upper num den :
  0 < den -> nearest_even num den <= num / den + 1.
Proof.
  intros Hd. unfold nearest_even.
  repeat match goal with |- context [if ?b then _ else _] => destruct b end; lia.
Qed.

Lemma nearest_even_mono n1 n2 den :
  0 < den -> n1 <= n2 -> nearest_even n1 den <= nearest_even n2 den.
Proof.
  intros Hd Hn.
  pose proof (Z.div_le_mono n1 n2 den Hd Hn) as Hm.
  destruct (Z.eq_dec (n1 / den) (n2 / den)) as [E|NE].
  - pose proof (Z.div_mod n1 den ltac:(lia)) as D1.
    pose proof (Z.div_mod n2 den ltac:(lia)) as D2.
    unfold nearest_even. rewrite <- E in *.
    assert (n1 mod den <= n2 mod den) by lia.
    repeat match goal with
           | |- context [?a <? ?b] => destruct (Z.ltb_spec a b)
           | |- context [Z.even ?a] => destruct (Z.even a)
           end; lia.
  - pose proof (nearest_even_upper n1 den Hd).
    pose proof (nearest_even_lower n2 den Hd). lia.
Qed.

Lemma ulp_exp_nonneg q : 0 <= ulp_exp q.
Proof. unfold ulp_exp. lia. Qed.

Lemma ulp_exp_le_log2 q : ulp_exp q <= Z.log2 q.
Proof. unfold ulp_exp. pose proof (Z.log2_nonneg q). lia. Qed.

Lemma round_upper num den :
  0 < den -> 0 <= num ->
  round num den <= 2 ^ (Z.log2 (num / den) + 1).
Proof.
  intros Hd Hn. unfold round.
  set (q := num / den). set (u := ulp_exp q).
  assert (Hq : 0 <= q) by (apply Z.div_pos; lia).
  assert (Hu : 0 <= u) by apply ulp_exp_nonneg.
  assert (Hue : u <= Z.log2 q) by apply ulp_exp_le_log2.
  assert (Hp : 0 < 2 ^ u) by (apply Z.pow_pos_nonneg; lia).
  assert (Hlt : q < 2 ^ (Z.log2 q + 1)).
  { destruct (Z.eq_dec q 0) as [->|]; [reflexivity|].
    replace (Z.log2 q + 1) with (Z.succ (Z.log2 q)) by lia.
    apply Z.log2_spec. lia. }
  replace (2 ^ (Z.log2 q + 1)) with (2 ^ (Z.log2 q + 1 - u) * 2 ^ u) in *
    by (rewrite <- Z.pow_add_r by lia; f_equal; lia).
  apply Z.mul_le_mono_nonneg_r; [lia|].
  pose proof (nearest_even_upper num (den * 2 ^ u) ltac:(lia)).
  assert (num / (den * 2 ^ u) < 2 ^ (Z.log2 q + 1 - u)); [|lia].
  rewrite <- Z.div_div by lia. fold q.
  apply Z.div_lt_upper_bound; lia.
Qed.

Lemma round_lower num den :
  0 < den -> 0 <= num -> 1 <= num / den ->
  2 ^ Z.log2 (num / den) <= round num den.
Proof.
  intros Hd Hn H1. unfold round.
  set (q := num / den) in *. set (u := ulp_exp q).
  assert (Hu : 0 <= u) by apply ulp_exp_nonneg.
  assert (Hue : u <= Z.log2 q) by apply ulp_exp_le_log2.
  assert (Hp : 0 < 2 ^ u) by (apply Z.pow_pos_nonneg; lia).
  assert (Hge : 2 ^ Z.log2 q <= q) by (apply Z.log2_spec; lia).
  replace (2 ^ Z.log2 q) with (2 ^ (Z.log2 q - u) * 2 ^ u) in *
    by (rewrite <- Z.pow_add_r by lia; f_equal; lia).
  apply Z.mul_le_mono_nonneg_r; [lia|].
  pose proof (nearest_even_lower num (den * 2 ^ u) ltac:(lia)).
  assert (2 ^ (Z.log2 q - u) <= num / (den * 2 ^ u)); [|lia].
  rewrite <- Z.div_div by lia. fold q.
  apply Z.div_le_lower_bound; lia.
Qed.

Lemma round_mono n1 n2 den :
  0 < den -> 0 <= n1 -> n1 <= n2 -> round n1 den <= round n2 den.
Proof.
  intros Hd H0 Hn.
  pose proof (Z.div_le_mono n1 n2 den Hd Hn) as Hq.
  assert (Hq1 : 0 <= n1 / den) by (apply Z.div_pos; lia).
  pose proof (Z.log2_le_mono _ _ Hq) as He.
  destruct (Z.eq_dec (ulp_exp (n1 / den)) (ulp_exp (n2 / den))) as [E|NE].
  - unfold round. rewrite <- E.
    set (u := ulp_exp (n1 / den)).
    assert (0 < 2 ^ u) by (apply Z.pow_pos_nonneg; [lia|apply ulp_exp_nonneg]).
    apply Z.mul_le_mono_nonneg_r; [lia|].
    apply nearest_even_mono; lia.
  - assert (Hlt : Z.log2 (n1 / den) < Z.log2 (n2 / den)).
    { unfold ulp_exp in NE. lia. }
    assert (1 <= n2 / den).
    { destruct (Z.le_gt_cases 1 (n2 / den)); [assumption|].
      assert (n2 / den = 0) by lia.
      assert (n1 / den = 0) by lia. congruence. }
    pose proof (round_upper n1 den Hd H0).
    pose proof (round_lower n2 den Hd ltac:(lia) ltac:(lia)).
    assert (2 ^ (Z.log2 (n1 / den) + 1) <= 2 ^ Z.log2 (n2 / den))
      by (apply Z.pow_le_mono_r; lia).
    lia.
Qed.


(** Sums and products of non-negative Numbers are monotone in each
    argument. *)
Lemma add_mono_r x y1 y2 :
  0 <= x -> 0 <= y1 -> y1 <= y2 -> add x y1 <= add x y2.
Proof. intros. unfold add. apply round_mono; lia. Qed.

Lemma mul_mono_l x1 x2 y :
  0 <= y -> 0 <= x1 -> x1 <= x2 -> mul x1 y <= mul x2 y.
Proof.
  intros. unfold mul. apply round_mono; [reflexivity|nia|nia].
Qed.

Lemma round_nonneg num den : 0 < den -> 0 <= num -> 0 <= round num den.
Proof.
  intros Hd Hn. unfold round.
  set (u := ulp_exp (num / den)).
  assert (0 < 2 ^ u) by (apply Z.pow_pos_nonneg; [lia|apply ulp_exp_nonneg]).
  pose proof (nearest_even_lower num (den * 2 ^ u) ltac:(lia)).
  assert (0 <= num / (den * 2 ^ u)) by (apply Z.div_pos; lia).
  apply Z.mul_nonneg_nonneg; lia.
Qed.

End Binary64Facts.

(** ** Strings *)

Module StringFacts.

Lemma append_nil (s : string) : ("" +:+ s)%string = s.
Proof. reflexivity. Qed.

Lemma append_cons c (p s : string) : (String c p +:+ s)%string = String c (p +:+ s).
Proof. reflexivity. Qed.

Ltac string_cbn := rewrite ?append_nil, ?append_cons; cbn.

Lemma substring_all s : String.substring 0 (String.length s) s = s.
Proof. induction s as [|c s IH]; cbn; [reflexivity|]. by rewrite IH. Qed.

Lemma substring_app_r p s :
  String.substring (String.length p) (String.length s) (p +:+ s) = s.
Proof. induction p as [|c p IH]; string_cbn; [apply substring_all|]. exact IH. Qed.

Lemma length_app (p s : string) :
  String.length (p +:+ s) = (String.length p + String.length s)%nat.
Proof. induction p as [|c p IH]; string_cbn; [reflexivity|]. by rewrite IH. Qed.

Lemma substring_split s k :
  (k <= String.length s)%nat ->
  s = (String.substring 0 k s +:+ String.substring k (String.length s - k) s)%string.
Proof.
  revert k. induction s as [|c s IH]; intros [|k] Hk; cbn in *.
  - reflexivity.
  - lia.
  - by rewrite substring_all.
  - rewrite append_cons. f_equal. apply IH. lia.
Qed.

Lemma endsWith_true s suf :
  JS.endsWith s suf = true <-> exists p, s = (p +:+ suf)%string.
Proof.
  unfold JS.endsWith. split.
  - destruct (Z.ltb_spec (Z.of_nat (String.length s) - Z.of_nat (String.length suf)) 0) as [|Hle];
      [discriminate|].
    intros H. apply String.eqb_eq in H.
    exists (String.substring 0 (String.length s - String.length suf) s).
    replace (Z.to_nat (Z.of_nat (String.length s) - Z.of_nat (String.length suf)))
      with (String.length s - String.length suf)%nat in H by lia.
    pose proof (substring_split s (String.length s - String.length suf) ltac:(lia)) as Hs.
    replace (String.length s - (String.length s - String.length suf))%nat
      with (String.length suf) in Hs by lia.
    by rewrite H in Hs.
  - intros [p ->]. rewrite length_app.
    destruct (Z.ltb_spec (Z.of_nat (String.length p + String.length suf) - Z.of_nat (String.length suf)) 0);
      [lia|].
    replace (Z.to_nat _) with (String.length p) by lia.
    rewrite substring_app_r. apply String.eqb_refl.
Qed.

Lemma startsWith_true s pre :
  JS.startsWith s pre = true <-> exists t, s = (pre +:+ t)%string.
Proof.
  unfold JS.startsWith. split.
  - destruct (Z.ltb_spec (Z.of_nat (String.length s)) (Z.of_nat (String.length pre))) as [|Hle];
      [discriminate|].
    intros H. apply String.eqb_eq in H.
    exists (String.substring (String.length pre) (String.length s - String.length pre) s).
    rewrite <- H at 1. apply substring_split. lia.
  - intros [t ->]. rewrite length_app.
    destruct (Z.ltb_spec (Z.of_nat (String.length pre + String.length t)) (Z.of_nat (String.length pre)));
      [lia|].
    assert (E : forall a b, String.substring 0 (String.length a) (a +:+ b) = a).
    { induction a as [|c a IH]; intros b; string_cbn; [by destruct b|]. by rewrite IH. }
    rewrite E. apply String.eqb_refl.
Qed.

Lemma toLowerCase_app a b :
  JS.toLowerCase (a +:+ b) = (JS.toLowerCase a +:+ JS.toLowerCase b)%string.
Proof. induction a as [|c a IH]; string_cbn; [reflexivity|]. by rewrite IH. Qed.

Lemma toLowerCase_length s : String.length (JS.toLowerCase s) = String.length s.
Proof. induction s as [|c s IH]; cbn; [reflexivity|]. by rewrite IH. Qed.

Lemma app_inj_length (a b c d : string) :
  String.length b = String.length d ->
  (a +:+ b)%string = (c +:+ d)%string -> a = c /\ b = d.
Proof.
  revert c. induction a as [|x a IH]; intros [|y c] Hl H;
    rewrite ?append_nil, ?append_cons in H.
  - auto.
  - subst b. cbn in Hl. rewrite length_app in Hl. lia.
  - subst d. cbn in Hl. rewrite length_app in Hl. lia.
  - injection H as -> H. destruct (IH c Hl H) as [-> ->]. auto.
Qed.

Lemma lower_dot c : JS.lower c = "."%char <-> c = "."%char.
Proof.
  destruct c as [[] [] [] [] [] [] [] []]; vm_compute; split; congruence.
Qed.

Lemma lower_p c : JS.lower c = "p"%char <-> c = "p"%char \/ c = "P"%char.
Proof.
  destruct c as [[] [] [] [] [] [] [] []]; vm_compute;
    (split; [intros H; first [discriminate H | auto] | intros [H|H]; first [discriminate H | auto]]).
Qed.

Lemma lower_t c : JS.lower c = "t"%char <-> c = "t"%char \/ c = "T"%char.
Proof.
  destruct c as [[] [] [] [] [] [] [] []]; vm_compute;
    (split; [intros H; first [discriminate H | auto] | intros [H|H]; first [discriminate H | auto]]).
Qed.

Lemma model_name_accepted name :
  JS.endsWith (JS.toLowerCase name) ".pt" = true <-> ends_in_pt name.
Proof.
  rewrite endsWith_true. split.
  - intros [p Hp].
    assert (Hlen : (3 <= String.length name)%nat).
    { rewrite <- toLowerCase_length, Hp, length_app. cbn. lia. }
    pose proof (substring_split name (String.length name - 3) ltac:(lia)) as Hs.
    set (stem := String.substring 0 (String.length name - 3) name) in *.
    set (tl := String.substring (String.length name - 3)
                 (String.length name - (String.length name - 3)) name) in *.
    assert (Htl : String.length tl = 3%nat).
    { assert (String.length name = (String.length stem + String.length tl)%nat)
        by (rewrite Hs at 1; apply length_app).
      assert (String.length stem = (String.length name - 3)%nat).
      { unfold stem. clear -Hlen. 
        assert (G : forall s k, (k <= String.length s)%nat -> String.length (String.substring 0 k s) = k).
        { induction s as [|c s IH]; intros [|k] Hk; cbn in *; try lia.
          rewrite IH; lia. }
        apply G. lia. }
      lia. }
    destruct tl as [|c1 [|c2 [|c3 [|]]]]; cbn in Htl; try lia.
    exists stem, c1, c2, c3. split; [exact Hs|].
    rewrite Hs, toLowerCase_app in Hp.
    apply app_inj_length in Hp; [|reflexivity].
    destruct Hp as [_ Hp]. cbn in Hp. injection Hp as H1 H2 H3.
    unfold pt_suffix. rewrite <- lower_dot, <- lower_p, <- lower_t. auto.
  - intros (stem & c1 & c2 & c3 & -> & H1 & H2 & H3).
    exists (JS.toLowerCase stem). rewrite toLowerCase_app. f_equal. cbn.
    apply lower_dot in H1. apply lower_p in H2. apply lower_t in H3.
    by rewrite H1, H2, H3.
Qed.

Lemma image_type_accepted type :
  JS.startsWith type "image/" = true <-> image_type type.
Proof. apply startsWith_true. Qed.

End StringFacts.

(** ** The numbers of a completed run *)

Module AnalysisFacts.
Import Binary64 Binary64Facts.

Lemma resume_fulfilled_state w :
  state (exec (resumeAnalysis Fulfilled) w) =
  {| model := model (state w); image := image (state w); isAnalyzing := false;
     result := Some (drawn w); error := error (state w) |}.
Proof. reflexivity. Qed.

Lemma n0_24_nonneg : 0 <= n0_24. Proof. vm_compute. discriminate. Qed.
Lemma n0_75_nonneg : 0 <= n0_75. Proof. vm_compute. discriminate. Qed.
Lemma n2_3_nonneg : 0 <= n2_3. Proof. vm_compute. discriminate. Qed.
Lemma n1_2_nonneg : 0 <= n1_2. Proof. vm_compute. discriminate. Qed.

(** Facts of binary64 about the literals: [1 * c = c], [c + 0 = c],
    [0.75 + 0.24] is the Number [0.99] and [1.2 + 2.3] is [3.5]. *)
Lemma mul_one_n0_24 : mul one n0_24 = n0_24. Proof. vm_compute. reflexivity. Qed.
Lemma mul_one_n2_3 : mul one n2_3 = n2_3. Proof. vm_compute. reflexivity. Qed.
Lemma add_n0_75_0 : add n0_75 0 = n0_75. Proof. vm_compute. reflexivity. Qed.
Lemma add_n1_2_0 : add n1_2 0 = n1_2. Proof. vm_compute. reflexivity. Qed.
Lemma add_n0_75_n0_24 : add n0_75 n0_24 = lit 99 100. Proof. vm_compute. reflexivity. Qed.
Lemma add_n1_2_n2_3 : add n1_2 n2_3 = lit 35 10. Proof. vm_compute. reflexivity. Qed.

(** [c + r * d] for a draw [r] in [[0, 1)] lies between [c + 0] and
    [c + d]. *)
Lemma affine_range c d r :
  0 <= c -> 0 <= d -> mul one d = d -> 0 <= r -> r < one ->
  add c 0 <= add c (mul r d) <= add c d.
Proof.
  intros Hc Hd Hone H0 H1.
  assert (Hm0 : 0 <= mul r d).
  { unfold mul. apply round_nonneg; [reflexivity|].
    apply Z.mul_nonneg_nonneg; lia. }
  assert (Hm1 : mul r d <= d).
  { rewrite <- Hone at 2. apply mul_mono_l; lia. }
  split; apply add_mono_r; lia.
Qed.

Lemma confidence_range r :
  0 <= r -> r < one ->
  n0_75 <= add n0_75 (mul r n0_24) <= lit 99 100.
Proof.
  intros H0 H1.
  rewrite <- add_n0_75_0 at 1. rewrite <- add_n0_75_n0_24.
  apply (affine_range n0_75 n0_24 r);
    [exact n0_75_nonneg|exact n0_24_nonneg|exact mul_one_n0_24|exact H0|exact H1].
Qed.

Lemma processingTime_range r :
  0 <= r -> r < one ->
  n1_2 <= add n1_2 (mul r n2_3) <= lit 35 10.
Proof.
  intros H0 H1.
  rewrite <- add_n1_2_0 at 1. rewrite <- add_n1_2_n2_3.
  apply (affine_range n1_2 n2_3 r);
    [exact n1_2_nonneg|exact n2_3_nonneg|exact mul_one_n2_3|exact H0|exact H1].
Qed.

(** The Numbers 0.75, 0.99 and 3.5 against the real numbers of the same
    name: [0.75] and [3.5] are exact, [0.99] lies below 99/100. *)
Lemma n0_75_exact : 100 * n0_75 = 75 * one. Proof. vm_compute. reflexivity. Qed.
Lemma n3_5_exact : 10 * lit 35 10 = 35 * one. Proof. vm_compute. reflexivity. Qed.
Lemma n0_99_below : 100 * lit 99 100 <= 99 * one. Proof. vm_compute. discriminate. Qed.


End AnalysisFacts.

(** ** What each handler leaves behind *)

#[local] Arguments Binary64.add : simpl never.
#[local] Arguments Binary64.mul : simpl never.
#[local] Arguments Binary64.lit : simpl never.
#[local] Arguments formatFileSize : simpl never.
#[local] Arguments JS.endsWith : simpl never.
#[local] Arguments JS.startsWith : simpl never.

Lemma exec_handleModelUpload_rejected file w :
  JS.endsWith (JS.toLowerCase (File.name file)) ".pt" = false ->
  exec (handleModelUpload file) w =
  exec (setError (Some "Please upload a valid PyTorch model file (.pt)")) w.
Proof. intros H. unfold handleModelUpload. rewrite H. reflexivity. Qed.

Lemma exec_handleImageUpload_rejected file w :
  JS.startsWith (File.type file) "image/" = false ->
  exec (handleImageUpload file) w =
  exec (setError (Some "Please upload a valid image file")) w.
Proof. intros H. unfold handleImageUpload. rewrite H. reflexivity. Qed.

Lemma exec_handleImageUpload_accepted file w :
  JS.startsWith (File.type file) "image/" = true ->
  exec (handleImageUpload file) w =
  {| state := {| model := model (state w);
                 image := Some {| UploadedImage.file := file;
                                  UploadedImage.url := next_url w;
                                  UploadedImage.name := File.name file;
                                  UploadedImage.size := formatFileSize (File.size file) |};
                 isAnalyzing := isAnalyzing (state w);
                 result := None;
                 error := None |};
     live := {[ next_url w ]} ∪ live w;
     revoked := revoked w;
     next_url := S (next_url w);
     timers := timers w;
     random := random w;
     draws := draws w;
     clock := clock w;
     origin := origin w |}.
Proof. intros H. unfold handleImageUpload. rewrite H. reflexivity. Qed.

Lemma exec_clearModel w :
  exec clearModel w =
  {| state := {| model := None; image := image (state w);
                 isAnalyzing := isAnalyzing (state w); result := None;
                 error := error (state w) |};
     live := live w; revoked := revoked w; next_url := next_url w;
     timers := timers w; random := random w; draws := draws w;
     clock := clock w; origin := origin w |}.
Proof. reflexivity. Qed.

Lemma exec_clearImage w :
  exec clearImage w =
  {| state := {| model := model (state w); image := None;
                 isAnalyzing := isAnalyzing (state w); result := None;
                 error := error (state w) |};
     live := match image (state w) with
             | Some im => live w ∖ {[ UploadedImage.url im ]}
             | None => live w
             end;
     revoked := match image (state w) with
                | Some im => UploadedImage.url im :: revoked w
                | None => revoked w
                end;
     next_url := next_url w; timers := timers w; random := random w;
     draws := draws w; clock := clock w; origin := origin w |}.
Proof.
  unfold exec, clearImage, useState, mbind, M_bind. cbn.
  destruct (image (state w)); reflexivity.
Qed.

Lemma exec_setError v w :
  exec (setError v) w =
  {| state := {| model := model (state w); image := image (state w);
                 isAnalyzing := isAnalyzing (state w);
                 result := result (state w); error := v |};
     live := live w; revoked := revoked w; next_url := next_url w;
     timers := timers w; random := random w; draws := draws w;
     clock := clock w; origin := origin w |}.
Proof. reflexivity. Qed.

Lemma exec_handleModelUpload_accepted file w :
  JS.endsWith (JS.toLowerCase (File.name file)) ".pt" = true ->
  exec (handleModelUpload file) w =
  {| state := {| model := Some {| UploadedModel.file := file;
                                  UploadedModel.name := File.name file;
                                  UploadedModel.size := formatFileSize (File.size file);
                                  UploadedModel.uploadedAt := clock w |};
                 image := image (state w);
                 isAnalyzing := isAnalyzing (state w);
                 result := result (state w); error := None |};
     live := live w; revoked := revoked w; next_url := next_url w;
     timers := timers w; random := random w; draws := draws w;
     clock := clock w; origin := origin w |}.
Proof. intros H. unfold handleModelUpload. rewrite H. reflexivity. Qed.

Lemma exec_runAnalysis_guarded w :
  absent (model (state w)) || absent (image (state w)) = true ->
  exec runAnalysis w = w.
Proof.
  intros H. unfold exec, runAnalysis, useState, mbind, M_bind. cbn.
  rewrite H. reflexivity.
Qed.

Lemma exec_runAnalysis_started w :
  absent (model (state w)) || absent (image (state w)) = false ->
  exec runAnalysis w =
  {| state := {| model := model (state w); image := image (state w);
                 isAnalyzing := true; result := None; error := None |};
     live := live w; revoked := revoked w; next_url := next_url w;
     timers := timers w ++
       [{| delay := Binary64.add n2000 (Binary64.mul (random w (draws w)) n3000);
           seen_model := model (state w);
           seen_image := image (state w) |}];
     random := random w; draws := S (draws w); clock := clock w;
     origin := origin w |}.
Proof.
  intros H. unfold exec, runAnalysis, useState, mbind, M_bind. cbn.
  rewrite H. reflexivity.
Qed.

Lemma exec_resumeAnalysis_fulfilled w :
  exec (resumeAnalysis Fulfilled) w =
  {| state := {| model := model (state w); image := image (state w);
                 isAnalyzing := false; result := Some (drawn w);
                 error := error (state w) |};
     live := live w; revoked := revoked w; next_url := next_url w;
     timers := timers w; random := random w;
     draws := S (S (S (draws w))); clock := clock w; origin := origin w |}.
Proof. reflexivity. Qed.

Lemma exec_resumeAnalysis_rejected reason w :
  exec (resumeAnalysis (Rejected reason)) w =
  {| state := {| model := model (state w); image := image (state w);
                 isAnalyzing := false; result := result (state w);
                 error := Some "Analysis failed. Please try again."%string |};
     live := live w; revoked := revoked w; next_url := next_url w;
     timers := timers w; random := random w; draws := draws w;
     clock := clock w; origin := origin w |}.
Proof. reflexivity. Qed.

(** Case analysis on what an event does: the guards of the handler it
    runs are decided, and the world it leaves is written out. *)
Ltac handle_event e w :=
  unfold step, track; destruct e as [file|file| | | | |k o|ms]; cbn [handle];
  [ destruct (JS.endsWith (JS.toLowerCase (File.name file)) ".pt") eqn:?;
    [ rewrite exec_handleModelUpload_accepted by assumption
    | rewrite exec_handleModelUpload_rejected, exec_setError by assumption ]
  | destruct (JS.startsWith (File.type file) "image/") eqn:?;
    [ rewrite exec_handleImageUpload_accepted by assumption
    | rewrite exec_handleImageUpload_rejected, exec_setError by assumption ]
  | rewrite exec_clearModel
  | rewrite exec_clearImage
  | destruct (absent (model (state w)) || absent (image (state w))) eqn:?;
    [ rewrite exec_runAnalysis_guarded by assumption
    | rewrite exec_runAnalysis_started by assumption ]
  | rewrite exec_setError
  | destruct o; destruct (timers w !! k) eqn:?;
    rewrite ?exec_resumeAnalysis_fulfilled, ?exec_resumeAnalysis_rejected
  | ];
  unfold with_origin, with_timers, with_clock; cbn.

(** ** Invariants of the session *)

Lemma session_inv_initial rnd t0 : session_inv (initial rnd t0).
Proof.
  repeat split; cbn; try constructor; try discriminate.
Qed.

Lemma absent_false {A} (v : option A) : absent v = false -> is_Some v.
Proof. destruct v; [eauto|discriminate]. Qed.

Lemma absent_true {A} (v : option A) : absent v = true -> v = None.
Proof. destruct v; [discriminate|reflexivity]. Qed.

Lemma session_inv_step e w : session_inv w -> session_inv (step e w).
Proof.
  intros (Ht & Hr & Hb). unfold session_inv.
  handle_event e w.
  all: try (destruct (result (state w)) eqn:?; cbn).
  all: repeat split;
    try assumption; try discriminate; try (intros; congruence); eauto.
  all: try (apply Forall_delete; assumption).
  all: try (intros _; destruct (timers w); discriminate).
  all: try (intros r _; eexists; split; [reflexivity|];
            eapply Forall_lookup_1; eassumption).
  all: apply Forall_app; split; [assumption|];
    match goal with
    | H : _ || _ = false |- _ => apply orb_false_elim in H as [Hm Hi]
    end;
    repeat constructor; cbn; auto using absent_false.
Qed.

Lemma reachable_session_inv w : reachable w -> session_inv w.
Proof.
  induction 1; auto using session_inv_initial, session_inv_step.
Qed.

Lemma handles_inv_initial rnd t0 : handles_inv (initial rnd t0).
Proof.
  repeat split; cbn; try constructor; try set_solver.
Qed.

Lemma handles_inv_step e w : handles_inv w -> handles_inv (step e w).
Proof.
  intros (Hnd & Hrv & Hlv & Him). unfold handles_inv.
  handle_event e w.
  all: try (repeat split;
            first [assumption | apply Hlv; assumption | discriminate | auto]; fail).
  - split; [assumption|]. split; [intros u Hu; apply Hrv in Hu; lia|].
    split.
    + intros u [->%elem_of_singleton|Hu]%elem_of_union.
      * split; [lia|]. intros Hu%Hrv. lia.
      * apply Hlv in Hu as [? ?]. split; [lia|assumption].
    + intros im [= <-]. cbn. apply elem_of_union_l, elem_of_singleton. reflexivity.
  - destruct (image (state w)) as [im|] eqn:Eim.
    + pose proof (Him _ eq_refl) as Ht. destruct (Hlv _ Ht) as [Hlt Hnr].
      split; [constructor; assumption|].
      split; [intros u [->|Hu]%elem_of_cons; auto|].
      split; [|discriminate].
      intros u [Hu Hne]%elem_of_difference.
      apply Hlv in Hu as [? ?]. split; [assumption|].
      intros [->|?]%elem_of_cons; [|contradiction].
      apply Hne, elem_of_singleton. reflexivity.
    + repeat split; first [assumption | apply Hlv; assumption | discriminate].
Qed.

Lemma no_leak_step e w :
  no_leak w -> enabled e w = true -> no_leak (step e w).
Proof.
  unfold no_leak, enabled. intros Hl He.
  handle_event e w; try exact Hl.
  - apply absent_true in He. rewrite He in Hl.
    rewrite Hl. apply union_empty_r_L.
  - destruct (image (state w)) as [im|]; [|discriminate].
    rewrite Hl. apply difference_diag_L.
Qed.

Lemma reachable_handles w : reachable w -> handles_inv w /\ no_leak w.
Proof.
  induction 1 as [rnd t0 _|e w _ [IH1 IH2] He].
  - split; [apply handles_inv_initial|reflexivity].
  - split; [by apply handles_inv_step|by apply no_leak_step].
Qed.


(** Through the page at most one run is parked, the busy flag is up
    exactly while one is, and no result is stored meanwhile. *)
Lemma reachable_busy_window w :
  reachable w ->
  (length (timers w) <= 1)%nat /\
  (isAnalyzing (state w) = true <-> timers w <> []) /\
  (isAnalyzing (state w) = true -> result (state w) = None).
Proof.
  induction 1 as [rnd t0 H|e w Hw (IHl & IHb & IHr) He].
  - cbn. split; [lia|]. split; [|discriminate]. split; [discriminate|congruence].
  - revert He. unfold enabled.
    handle_event e w; intros He; try discriminate He;
      try (split; [exact IHl|split; [exact IHb|]]; first [exact IHr|reflexivity]).
    + cbn in He. apply negb_true_iff in He.
      assert (Ht : timers w = []).
      { destruct (timers w) as [|a l] eqn:E; [reflexivity|].
        assert (isAnalyzing (state w) = true) by (apply IHb; discriminate).
        congruence. }
      rewrite Ht. cbn. split; [lia|]. split; [|reflexivity].
      split; [discriminate|reflexivity].
    + assert (Ht : delete k (timers w) = []).
      { destruct (timers w) as [|x [|y l]]; cbn in *; try lia.
        - reflexivity.
        - destruct k; [reflexivity|discriminate]. }
      rewrite Ht. cbn. split; [lia|]. split; [|discriminate].
      split; [discriminate|congruence].
Qed.

Lemma reachable_play es w : reachable w -> reachable (play es w).
Proof.
  revert w. induction es as [|e es IH]; intros w Hw; cbn [play]; [exact Hw|].
  apply IH. destruct (enabled e w) eqn:He; [by apply reachable_step|exact Hw].
Qed.

Lemma halves_unit_random : unit_random halves.
Proof.
  intros n. unfold halves. vm_compute. repeat split; discriminate.
Qed.

Lemma reachable_fresh_page : reachable fresh_page.
Proof. apply reachable_initial, halves_unit_random. Qed.

Lemma reachable_ready_page : reachable ready_page.
Proof. apply reachable_play, reachable_fresh_page. Qed.

Lemma reachable_busy_page : reachable busy_page.
Proof. apply reachable_play, reachable_ready_page. Qed.

Lemma reachable_orphan_result_page : reachable orphan_result_page.
Proof. apply reachable_play, reachable_busy_page. Qed.

(** ** Uploads *)

(** The model upload never touches the stored result. *)
Lemma handleModelUpload_result file w :
  result (state (exec (handleModelUpload file) w)) = result (state w).
Proof.
  unfold handleModelUpload. destruct (negb _); reflexivity.
Qed.

(** C1 (as the code behaves).  A successful [submitModel] does not clear
    the stored result: on the page reached by storing both files,
    starting the analysis, clearing the model while the run is parked
    and letting the run complete, the upload zone accepts "net.pt",
    the model is stored, and the result of the earlier run is still
    there. *)
Theorem submitModel_keeps_stale_result :
  reachable orphan_result_page /\
  enabled (SubmitModel net_pt) orphan_result_page = true /\
  JS.endsWith (JS.toLowerCase (File.name net_pt)) ".pt" = true /\
  result (state orphan_result_page) = Some (drawn busy_page) /\
  UploadedModel.name <$>
    model (state (step (SubmitModel net_pt) orphan_result_page)) =
    Some "net.pt"%string /\
  result (state (step (SubmitModel net_pt) orphan_result_page)) =
    Some (drawn busy_page).
Proof.
  split; [exact reachable_orphan_result_page|].
  vm_compute. repeat split; reflexivity.
Qed.

(** ** Byte sizes *)

Module SizeFacts.

Lemma floor_log1024_range b :
  0 < b ->
  0 <= JS.floor_log1024 b /\
  1024 ^ JS.floor_log1024 b <= b < 1024 ^ (JS.floor_log1024 b + 1).
Proof.
  intros Hb. unfold JS.floor_log1024.
  pose proof (Z.log2_nonneg b) as Hl.
  destruct (Z.log2_spec b Hb) as [Hlo Hhi].
  set (l := Z.log2 b) in *. set (i := l / 10).
  assert (Hi : 0 <= i) by (apply Z.div_pos; lia).
  pose proof (Z.div_mod l 10 ltac:(lia)) as Hdm.
  pose proof (Z.mod_pos_bound l 10 ltac:(lia)) as Hm.
  fold i in Hdm.
  split; [exact Hi|].
  change 1024 with (2 ^ 10). rewrite <- !Z.pow_mul_r by lia.
  split.
  - apply Z.le_trans with (2 ^ l); [|exact Hlo].
    apply Z.pow_le_mono_r; lia.
  - apply Z.lt_le_trans with (2 ^ Z.succ l); [exact Hhi|].
    apply Z.pow_le_mono_r; lia.
Qed.

(** Below one terabyte the unit is one of the four in [sizes], and the
    number printed is the size over the unit, to the nearest hundredth. *)
Lemma formatFileSize_below_terabyte b :
  0 < b < 1024 ^ 4 ->
  exists (i : nat) (unit : string),
    sizes !! i = Some unit /\
    1024 ^ Z.of_nat i <= b < 1024 ^ (Z.of_nat i + 1) /\
    formatFileSize b =
      (JS.showHundredths (JS.toFixed2 b (1024 ^ Z.of_nat i)) +:+ " " +:+ unit)%string.
Proof.
  intros [Hb Hlt].
  destruct (floor_log1024_range b Hb) as (Hi & Hlo & Hhi).
  set (i := JS.floor_log1024 b) in *.
  assert (Hi4 : i < 4).
  { destruct (Z.lt_ge_cases i 4) as [|Hge]; [assumption|].
    assert (1024 ^ 4 <= 1024 ^ i) by (apply Z.pow_le_mono_r; lia). lia. }
  assert (Hlookup : exists unit, sizes !! Z.to_nat i = Some unit).
  { assert (Hc : i = 0 \/ i = 1 \/ i = 2 \/ i = 3) by lia.
    destruct Hc as [-> | [-> | [-> | ->]]]; cbn; eauto. }
  destruct Hlookup as [unit Hunit].
  exists (Z.to_nat i), unit. rewrite Z2Nat.id by lia.
  split; [exact Hunit|]. split; [lia|].
  unfold formatFileSize. fold i.
  destruct (Z.eqb_spec b 0) as [|_]; [lia|].
  unfold JS.index_text. destruct (Z.ltb_spec i 0) as [|_]; [lia|].
  rewrite Hunit. reflexivity.
Qed.

(** [toFixed2] is the nearest number of hundredths: twice the distance
    between [n / 100] and [num / den] is at most one hundredth, and a tie
    goes up. *)
Lemma toFixed2_nearest num den :
  0 < den ->
  let n := JS.toFixed2 num den in
  2 * den * n <= 200 * num + den < 2 * den * (n + 1).
Proof.
  intros Hd n. unfold n, JS.toFixed2.
  pose proof (Z.div_mod (200 * num + den) (2 * den) ltac:(lia)) as Hdm.
  pose proof (Z.mod_pos_bound (200 * num + den) (2 * den) ltac:(lia)) as Hm.
  lia.
Qed.

End SizeFacts.

(** C2 (as the code behaves).  [sizes] has four entries and the index is
    not capped: at [1024^4] bytes the index is 4, [sizes[4]] is
    [undefined], and the text is "1 undefined", whose unit is none of
    Bytes, KB, MB, GB. *)
Theorem formatFileSize_terabyte :
  JS.floor_log1024 (1024 ^ 4) = 4 /\
  sizes !! 4%nat = None /\
  formatFileSize (1024 ^ 4) = "1 undefined"%string /\
  formatFileSize 0 = "0 Bytes"%string /\
  formatFileSize (1024 ^ 4 - 1) = "1024 GB"%string.
Proof. vm_compute. repeat split; reflexivity. Qed.

(** ** Starting the analysis *)

(** C3 (as stated, refuted).  On the page with one run parked the busy
    flag is up, yet a call of [runAnalysis] is not a no-op: it draws a
    random number and parks a second run. *)
Lemma runAnalysis_while_busy :
  isAnalyzing (state busy_page) = true /\
  length (timers busy_page) = 1%nat /\
  length (timers (exec runAnalysis busy_page)) = 2%nat /\
  draws (exec runAnalysis busy_page) = S (draws busy_page) /\
  exec runAnalysis busy_page <> busy_page.
Proof.
  assert (H : length (timers (exec runAnalysis busy_page)) = 2%nat)
    by (vm_compute; reflexivity).
  split; [vm_compute; reflexivity|].
  split; [vm_compute; reflexivity|].
  split; [exact H|].
  split; [vm_compute; reflexivity|].
  intros E. rewrite E in H. vm_compute in H. discriminate H.
Qed.

(** C3 (amended).  [runAnalysis] returns at once, leaving the world as
    it is, when the model or the image is missing; it does not test the
    busy flag.  The busy flag is tested by the page: the analysis button
    is enabled exactly when both files are there and no analysis is
    running, and a click it does not allow changes nothing. *)
Theorem runAnalysis_noop (w : World) :
  (absent (model (state w)) || absent (image (state w)) = true ->
   exec runAnalysis w = w) /\
  enabled ClickAnalyze w =
    negb (absent (model (state w)) || absent (image (state w)) ||
          isAnalyzing (state w)) /\
  (absent (model (state w)) || absent (image (state w)) ||
   isAnalyzing (state w) = true ->
   play [ClickAnalyze] w = w).
Proof.
  split; [apply exec_runAnalysis_guarded|].
  split; [reflexivity|].
  intros H. cbn [play]. unfold enabled. rewrite H. reflexivity.
Qed.

Lemma runAnalysis_noop_witness :
  exec runAnalysis fresh_page = fresh_page /\
  play [ClickAnalyze] busy_page = busy_page.
Proof.
  split.
  - apply (proj1 (runAnalysis_noop fresh_page)). reflexivity.
  - apply (proj2 (proj2 (runAnalysis_noop busy_page))). vm_compute. reflexivity.
Defined.

(** ** Replacing and clearing the image *)

(** C4 (as stated, refuted).  With "cat.png" stored under URL 0, a
    successful [handleImageUpload] of "dog.jpg" stores it under URL 1 and
    revokes nothing: URL 0 is still alive. *)
Lemma handleImageUpload_keeps_old_url :
  UploadedImage.url <$> image (state (play [SubmitImage cat_png] fresh_page)) =
    Some 0%nat /\
  JS.startsWith (File.type dog_jpg) "image/" = true /\
  let w' := exec (handleImageUpload dog_jpg) (play [SubmitImage cat_png] fresh_page) in
  UploadedImage.url <$> image (state w') = Some 1%nat /\
  revoked w' = [] /\
  elements (live w') = [1%nat; 0%nat].
Proof. vm_compute. repeat split; reflexivity. Qed.

(** C4 (amended).  A successful [handleImageUpload] stores the file
    under a URL never handed out before, clears the error and the
    result, and revokes nothing.  On every page a user can reach the
    only live URL is the preview of the stored image, and the upload
    zone is offered only while no image is stored: there an upload has
    no earlier preview to release, and afterwards the new preview is
    the only live URL. *)
Theorem handleImageUpload_accepted (file : File.t) (w : World) :
  reachable w ->
  JS.startsWith (File.type file) "image/" = true ->
  let w' := exec (handleImageUpload file) w in
  image (state w') =
    Some {| UploadedImage.file := file;
            UploadedImage.url := next_url w;
            UploadedImage.name := File.name file;
            UploadedImage.size := formatFileSize (File.size file) |} /\
  (next_url w ∉ live w) /\ (next_url w ∉ revoked w) /\
  error (state w') = None /\
  result (state w') = None /\
  revoked w' = revoked w /\
  no_leak w /\
  (enabled (SubmitImage file) w = true ->
   image (state w) = None /\ live w = ∅ /\ live w' = {[ next_url w ]}).
Proof.
  intros Hr Hacc w'. subst w'.
  rewrite (exec_handleImageUpload_accepted _ _ Hacc). cbn.
  destruct (reachable_handles w Hr) as [(Hnd & Hrv & Hlv & Him) Hleak].
  split; [reflexivity|].
  split; [intros [Hlt _]%Hlv; lia|].
  split; [intros Hlt%Hrv; lia|].
  do 3 (split; [reflexivity|]).
  split; [exact Hleak|].
  intros He. apply absent_true in He.
  unfold no_leak in Hleak. rewrite He in Hleak.
  split; [exact He|]. split; [exact Hleak|].
  rewrite Hleak. apply union_empty_r_L.
Qed.

Lemma handleImageUpload_accepted_witness :
  let w' := exec (handleImageUpload cat_png) fresh_page in
  image (state w') =
    Some {| UploadedImage.file := cat_png;
            UploadedImage.url := next_url fresh_page;
            UploadedImage.name := File.name cat_png;
            UploadedImage.size := formatFileSize (File.size cat_png) |} /\
  (next_url fresh_page ∉ live fresh_page) /\
  (next_url fresh_page ∉ revoked fresh_page) /\
  error (state w') = None /\
  result (state w') = None /\
  revoked w' = revoked fresh_page /\
  no_leak fresh_page /\
  (enabled (SubmitImage cat_png) fresh_page = true ->
   image (state fresh_page) = None /\ live fresh_page = ∅ /\
   live w' = {[ next_url fresh_page ]}).
Proof.
  apply (handleImageUpload_accepted cat_png fresh_page).
  - exact reachable_fresh_page.
  - vm_compute. reflexivity.
Defined.

(** C8.  Every call of [clearImage] the page can make (the trash button
    is rendered only while an image is stored) removes the image, clears
    the result and revokes exactly one URL, the preview of the stored
    image, which was alive and had never been revoked before; no URL is
    revoked twice.  After the call the button is gone, so of two
    consecutive clicks the second runs nothing and releases nothing. *)
Theorem clearImage_releases (w : World) :
  reachable w ->
  enabled ClearImage w = true ->
  exists im : UploadedImage.t,
    image (state w) = Some im /\
    image (state (step ClearImage w)) = None /\
    result (state (step ClearImage w)) = None /\
    revoked (step ClearImage w) = UploadedImage.url im :: revoked w /\
    (UploadedImage.url im ∈ live w) /\
    (UploadedImage.url im ∉ revoked w) /\
    live (step ClearImage w) = ∅ /\
    NoDup (revoked (step ClearImage w)) /\
    enabled ClearImage (step ClearImage w) = false /\
    revoked (play [ClearImage; ClearImage] w) = revoked (step ClearImage w).
Proof.
  intros Hr He.
  destruct (reachable_handles w Hr) as [(Hnd & Hrv & Hlv & Him) Hleak].
  cbn [play]. rewrite He.
  unfold enabled in He. unfold no_leak in Hleak.
  destruct (image (state w)) as [im|] eqn:Eim; [|discriminate He].
  assert (Hs : step ClearImage w =
    {| state := {| model := model (state w); image := None;
                   isAnalyzing := isAnalyzing (state w); result := None;
                   error := error (state w) |};
       live := live w ∖ {[ UploadedImage.url im ]};
       revoked := UploadedImage.url im :: revoked w;
       next_url := next_url w; timers := timers w; random := random w;
       draws := draws w; clock := clock w; origin := None |}).
  { unfold step. cbn [handle]. rewrite exec_clearImage, Eim.
    unfold track, with_origin. reflexivity. }
  exists im. pose proof (Him im eq_refl) as Hin.
  destruct (Hlv _ Hin) as [_ Hnr].
  rewrite Hs. cbn.
  split; [reflexivity|]. split; [reflexivity|]. split; [reflexivity|].
  split; [reflexivity|]. split; [exact Hin|]. split; [exact Hnr|].
  split; [rewrite Hleak; apply difference_diag_L|].
  split; [constructor; assumption|].
  split; reflexivity.
Qed.

Lemma clearImage_releases_witness :
  exists im : UploadedImage.t,
    image (state busy_page) = Some im /\
    image (state (step ClearImage busy_page)) = None /\
    result (state (step ClearImage busy_page)) = None /\
    revoked (step ClearImage busy_page) = UploadedImage.url im :: revoked busy_page /\
    (UploadedImage.url im ∈ live busy_page) /\
    (UploadedImage.url im ∉ revoked busy_page) /\
    live (step ClearImage busy_page) = ∅ /\
    NoDup (revoked (step ClearImage busy_page)) /\
    enabled ClearImage (step ClearImage busy_page) = false /\
    revoked (play [ClearImage; ClearImage] busy_page) =
      revoked (step ClearImage busy_page).
Proof.
  apply (clearImage_releases busy_page).
  - exact reachable_busy_page.
  - vm_compute. reflexivity.
Defined.

(** ** Completing the analysis *)

Section CompletedRun.
Import Binary64 AnalysisFacts.

(** C5.  When the promise of a parked run is fulfilled, the result
    stored has [isOriginal] the boolean "first draw > 0.5", a confidence
    between the Numbers 0.75 and 0.99 and a processing time between the
    Numbers 1.2 and 3.5; as real numbers the confidence lies in
    [[3/4, 99/100]] and the processing time is at most [7/2].  The
    processing time is computed from the third draw alone: the delay the
    run was parked with does not enter it. *)
Theorem completed_run_result (w : World) (k : nat) (a : Analysis) :
  unit_random (random w) ->
  timers w !! k = Some a ->
  exists r : AnalysisResult.t,
    result (state (step (Settle k Fulfilled) w)) = Some r /\
    AnalysisResult.isOriginal r = gt (random w (draws w)) n0_5 /\
    n0_75 <= AnalysisResult.confidence r <= lit 99 100 /\
    n1_2 <= AnalysisResult.processingTime r <= lit 35 10 /\
    75 * one <= 100 * AnalysisResult.confidence r <= 99 * one /\
    10 * AnalysisResult.processingTime r <= 35 * one /\
    AnalysisResult.processingTime r =
      add n1_2 (mul (random w (S (S (draws w)))) n2_3).
Proof.
  intros Hrnd Hk.
  exists (drawn (with_timers (delete k (timers w)) w)).
  assert (Hst : result (state (step (Settle k Fulfilled) w)) =
                Some (drawn (with_timers (delete k (timers w)) w))).
  { unfold step, handle. rewrite Hk. reflexivity. }
  pose proof (Hrnd (S (draws w))) as [[Hc0 _] Hc1].
  pose proof (Hrnd (S (S (draws w)))) as [[Hp0 _] Hp1].
  pose proof (confidence_range _ Hc0 Hc1) as Hc.
  pose proof (processingTime_range _ Hp0 Hp1) as Hp.
  pose proof n0_75_exact. pose proof n3_5_exact. pose proof n0_99_below.
  split; [exact Hst|].
  split; [reflexivity|].
  cbn [drawn AnalysisResult.confidence AnalysisResult.processingTime
       with_timers random draws].
  repeat split; try lia.
Qed.

Lemma completed_run_result_witness :
  exists r : AnalysisResult.t,
    result (state (step (Settle 0 Fulfilled) busy_page)) = Some r /\
    AnalysisResult.isOriginal r = gt (random busy_page (draws busy_page)) n0_5 /\
    n0_75 <= AnalysisResult.confidence r <= lit 99 100 /\
    n1_2 <= AnalysisResult.processingTime r <= lit 35 10 /\
    75 * one <= 100 * AnalysisResult.confidence r <= 99 * one /\
    10 * AnalysisResult.processingTime r <= 35 * one /\
    AnalysisResult.processingTime r =
      add n1_2 (mul (random busy_page (S (S (draws busy_page)))) n2_3).
Proof.
  refine (completed_run_result busy_page 0
            {| delay := add n2000 (mul n0_5 n3000);
               seen_model := model (state ready_page);
               seen_image := image (state ready_page) |} _ _).
  - intros n. vm_compute. repeat split; discriminate.
  - vm_compute. reflexivity.
Defined.

End CompletedRun.

(** C10.  Every run of [runAnalysis] that passed its guard is parked at
    its [await]; whatever happened in between and whatever way its
    promise settles, the [finally] leaves the busy flag down.  When the
    promise is rejected the result is not touched and the error becomes
    "Analysis failed. Please try again."; when it is fulfilled the
    result is stored and the error is not touched.  On every page a
    user can reach, a parked run means the busy flag is up and no result
    is stored, so after a rejection the result is still absent, and no
    run is left parked. *)
Theorem runAnalysis_finally (w : World) (k : nat) (a : Analysis) (o : settlement) :
  timers w !! k = Some a ->
  isAnalyzing (state (step (Settle k o) w)) = false /\
  (forall reason, o = Rejected reason ->
     result (state (step (Settle k o) w)) = result (state w) /\
     error (state (step (Settle k o) w)) =
       Some "Analysis failed. Please try again."%string) /\
  (o = Fulfilled ->
     result (state (step (Settle k o) w)) = Some (drawn w) /\
     error (state (step (Settle k o) w)) = error (state w)) /\
  (reachable w ->
     isAnalyzing (state w) = true /\
     result (state w) = None /\
     timers (step (Settle k o) w) = [] /\
     (forall reason, o = Rejected reason ->
        result (state (step (Settle k o) w)) = None)).
Proof.
  intros Hk.
  assert (Hst : state (step (Settle k o) w) =
    match o with
    | Fulfilled =>
        {| model := model (state w); image := image (state w);
           isAnalyzing := false; result := Some (drawn w);
           error := error (state w) |}
    | Rejected _ =>
        {| model := model (state w); image := image (state w);
           isAnalyzing := false; result := result (state w);
           error := Some "Analysis failed. Please try again."%string |}
    end).
  { unfold step. cbn [handle]. rewrite Hk.
    destruct o as [|reason];
      rewrite ?exec_resumeAnalysis_fulfilled, ?exec_resumeAnalysis_rejected;
      unfold track, with_origin, with_timers; reflexivity. }
  assert (Htm : timers (step (Settle k o) w) = delete k (timers w)).
  { unfold step. cbn [handle]. rewrite Hk.
    destruct o as [|reason];
      rewrite ?exec_resumeAnalysis_fulfilled, ?exec_resumeAnalysis_rejected;
      unfold track, with_origin, with_timers; reflexivity. }
  rewrite Hst, Htm.
  split; [destruct o; reflexivity|].
  split; [intros reason ->; split; reflexivity|].
  split; [intros ->; split; reflexivity|].
  intros Hw.
  destruct (reachable_busy_window w Hw) as (Hl & Hb & Hres).
  assert (Hne : timers w <> []) by (intros E; rewrite E in Hk; discriminate Hk).
  assert (Hbusy : isAnalyzing (state w) = true) by (by apply Hb).
  assert (Hnone : result (state w) = None) by (by apply Hres).
  split; [exact Hbusy|]. split; [exact Hnone|].
  split.
  - destruct (timers w) as [|x [|y l]]; cbn in *; try lia.
    + contradiction.
    + destruct k; [reflexivity|discriminate Hk].
  - intros reason ->. exact Hnone.
Qed.

Lemma runAnalysis_finally_witness :
  (isAnalyzing
     (state (step (Settle 0 (Rejected "offline")) image_cleared_mid_run)) = false /\
   result (state (step (Settle 0 (Rejected "offline")) image_cleared_mid_run)) = None /\
   error (state (step (Settle 0 (Rejected "offline")) image_cleared_mid_run)) =
     Some "Analysis failed. Please try again."%string /\
   timers (step (Settle 0 (Rejected "offline")) image_cleared_mid_run) = []) /\
  (isAnalyzing (state (step (Settle 0 Fulfilled) image_cleared_mid_run)) = false /\
   result (state (step (Settle 0 Fulfilled) image_cleared_mid_run)) =
     Some (drawn image_cleared_mid_run)).
Proof.
  assert (Hr : reachable image_cleared_mid_run)
    by (apply reachable_play, reachable_busy_page).
  assert (Hk : timers image_cleared_mid_run !! 0%nat =
               Some {| delay := Binary64.add n2000 (Binary64.mul n0_5 n3000);
                       seen_model := model (state ready_page);
                       seen_image := image (state ready_page) |})
    by (vm_compute; reflexivity).
  split.
  - destruct (runAnalysis_finally image_cleared_mid_run 0 _ (Rejected "offline") Hk)
      as (Hb & Hrej & _ & Hreach).
    destruct (Hreach Hr) as (_ & _ & Ht & Hnone).
    destruct (Hrej "offline"%string eq_refl) as [_ He].
    split; [exact Hb|]. split; [exact (Hnone "offline"%string eq_refl)|].
    split; [exact He|exact Ht].
  - destruct (runAnalysis_finally image_cleared_mid_run 0 _ Fulfilled Hk)
      as (Hb & _ & Hful & _).
    destruct (Hful eq_refl) as [Hres _].
    split; [exact Hb|exact Hres].
Defined.

(** ** Validation of uploads *)

(** C6.  [handleModelUpload] accepts exactly the names that end in ".pt"
    with letter case ignored: for such a name it stores the model (name,
    formatted size, upload time) and clears the error; for any other
    name it sets the format error and leaves the stored model as it
    was. *)
Theorem handleModelUpload_validation (file : File.t) (w : World) :
  (ends_in_pt (File.name file) ->
   model (state (exec (handleModelUpload file) w)) =
     Some {| UploadedModel.file := file;
             UploadedModel.name := File.name file;
             UploadedModel.size := formatFileSize (File.size file);
             UploadedModel.uploadedAt := clock w |} /\
   error (state (exec (handleModelUpload file) w)) = None) /\
  (~ ends_in_pt (File.name file) ->
   error (state (exec (handleModelUpload file) w)) =
     Some "Please upload a valid PyTorch model file (.pt)"%string /\
   model (state (exec (handleModelUpload file) w)) = model (state w)).
Proof.
  split.
  - intros H%StringFacts.model_name_accepted.
    rewrite (exec_handleModelUpload_accepted _ _ H). split; reflexivity.
  - intros H.
    assert (Hr : JS.endsWith (JS.toLowerCase (File.name file)) ".pt" = false).
    { destruct (JS.endsWith _ _) eqn:E; [|reflexivity].
      apply StringFacts.model_name_accepted in E. contradiction. }
    rewrite (exec_handleModelUpload_rejected _ _ Hr). split; reflexivity.
Qed.

Lemma ends_in_pt_upper : ends_in_pt "Net.PT".
Proof.
  exists "Net"%string, "."%char, "P"%char, "T"%char.
  split; [reflexivity|]. unfold pt_suffix. auto.
Qed.

Lemma not_ends_in_pt_txt : ~ ends_in_pt "net.txt".
Proof.
  intros H%StringFacts.model_name_accepted. vm_compute in H. discriminate H.
Qed.

Lemma handleModelUpload_validation_witness :
  (model (state (exec (handleModelUpload
                         {| File.name := "Net.PT"; File.size := 5; File.type := "" |})
                      ready_page)) =
     Some {| UploadedModel.file :=
               {| File.name := "Net.PT"; File.size := 5; File.type := "" |};
             UploadedModel.name := "Net.PT";
             UploadedModel.size := formatFileSize 5;
             UploadedModel.uploadedAt := clock ready_page |} /\
   error (state (exec (handleModelUpload
                         {| File.name := "Net.PT"; File.size := 5; File.type := "" |})
                      ready_page)) = None) /\
  (error (state (exec (handleModelUpload net_txt) ready_page)) =
     Some "Please upload a valid PyTorch model file (.pt)"%string /\
   model (state (exec (handleModelUpload net_txt) ready_page)) =
     model (state ready_page)).
Proof.
  split.
  - exact (proj1 (handleModelUpload_validation
                    {| File.name := "Net.PT"; File.size := 5; File.type := "" |}
                    ready_page) ends_in_pt_upper).
  - exact (proj2 (handleModelUpload_validation net_txt ready_page)
             not_ends_in_pt_txt).
Defined.

(** C7.  An upload that fails validation sets the error in the handler
    itself and changes nothing else: model, image, result, busy flag,
    object URLs and parked runs are as before. *)
Theorem rejected_upload_frame (file : File.t) (w : World) :
  (JS.endsWith (JS.toLowerCase (File.name file)) ".pt" = false ->
   error (state (exec (handleModelUpload file) w)) =
     Some "Please upload a valid PyTorch model file (.pt)"%string /\
   only_error_changed w (exec (handleModelUpload file) w)) /\
  (JS.startsWith (File.type file) "image/" = false ->
   error (state (exec (handleImageUpload file) w)) =
     Some "Please upload a valid image file"%string /\
   only_error_changed w (exec (handleImageUpload file) w)).
Proof.
  split; intros H.
  - rewrite (exec_handleModelUpload_rejected _ _ H).
    split; [reflexivity|]. repeat split.
  - rewrite (exec_handleImageUpload_rejected _ _ H).
    split; [reflexivity|]. repeat split.
Qed.

Lemma rejected_upload_frame_witness :
  (error (state (exec (handleModelUpload net_txt) orphan_result_page)) =
     Some "Please upload a valid PyTorch model file (.pt)"%string /\
   only_error_changed orphan_result_page
     (exec (handleModelUpload net_txt) orphan_result_page)) /\
  (error (state (exec (handleImageUpload net_txt) orphan_result_page)) =
     Some "Please upload a valid image file"%string /\
   only_error_changed orphan_result_page
     (exec (handleImageUpload net_txt) orphan_result_page)).
Proof.
  split.
  - apply (proj1 (rejected_upload_frame net_txt orphan_result_page)).
    vm_compute. reflexivity.
  - apply (proj2 (rejected_upload_frame net_txt orphan_result_page)).
    vm_compute. reflexivity.
Defined.

(** ** The invariant of the session *)

(** C9.  On every page a user can reach: a stored result was produced
    by a run that found both a model and an image when it started, every
    parked run found both, and the busy flag is up only while a run is
    parked.  Every operation keeps this, whether or not the page would
    allow it in that state. *)
Theorem session_invariant (w : World) :
  reachable w ->
  session_inv w /\ (forall e : event, session_inv (step e w)).
Proof.
  intros Hr. pose proof (reachable_session_inv w Hr) as Hinv.
  split; [exact Hinv|]. intros e. by apply session_inv_step.
Qed.

Lemma session_invariant_witness :
  session_inv orphan_result_page /\
  (forall e : event, session_inv (step e orphan_result_page)).
Proof.
  apply (session_invariant orphan_result_page).
  exact reachable_orphan_result_page.
Defined.

(** * Further properties of the component *)

(** ** Formatting sizes below one terabyte *)

Lemma append_empty_r (s : string) : (s +:+ "")%string = s.
Proof.
  induction s as [|c s IH]; [reflexivity|].
  rewrite StringFacts.append_cons. by rewrite IH.
Qed.

(** X1.  For a size between 1 byte and 1 TiB (excluded) the text is a
    number, a space and one of the four units; the unit is the largest
    power of 1024 not above the size, the number is the size over that
    power to the nearest hundredth (a tie goes up), and it lies between
    1 and 1024. *)
Theorem formatFileSize_scaled (b : Z) :
  0 < b < 1024 ^ 4 ->
  exists (i : nat) (unit : string),
    sizes !! i = Some unit /\
    1024 ^ Z.of_nat i <= b < 1024 ^ (Z.of_nat i + 1) /\
    formatFileSize b =
      (JS.showHundredths (JS.toFixed2 b (1024 ^ Z.of_nat i)) +:+ " " +:+ unit)%string /\
    100 <= JS.toFixed2 b (1024 ^ Z.of_nat i) <= 102400 /\
    2 * 1024 ^ Z.of_nat i * JS.toFixed2 b (1024 ^ Z.of_nat i)
      <= 200 * b + 1024 ^ Z.of_nat i
      < 2 * 1024 ^ Z.of_nat i * (JS.toFixed2 b (1024 ^ Z.of_nat i) + 1).
Proof.
  intros Hb.
  destruct (SizeFacts.formatFileSize_below_terabyte b Hb)
    as (i & unit & Hu & [Hlo Hhi] & Hf).
  exists i, unit.
  assert (Hd : 0 < 1024 ^ Z.of_nat i) by (apply Z.pow_pos_nonneg; lia).
  replace (Z.of_nat i + 1) with (Z.succ (Z.of_nat i)) in Hhi by lia.
  rewrite Z.pow_succ_r in Hhi by lia.
  pose proof (SizeFacts.toFixed2_nearest b (1024 ^ Z.of_nat i) Hd) as Hn.
  cbv zeta in Hn.
  set (d := 1024 ^ Z.of_nat i) in *.
  set (n := JS.toFixed2 b d) in *.
  split; [exact Hu|].
  split; [replace (Z.of_nat i + 1) with (Z.succ (Z.of_nat i)) by lia;
          rewrite Z.pow_succ_r by lia; fold d; lia|].
  split; [exact Hf|].
  split; [|exact Hn].
  split; nia.
Qed.

Lemma formatFileSize_scaled_witness :
  exists (i : nat) (unit : string),
    sizes !! i = Some unit /\
    1024 ^ Z.of_nat i <= 1234567 < 1024 ^ (Z.of_nat i + 1) /\
    formatFileSize 1234567 =
      (JS.showHundredths (JS.toFixed2 1234567 (1024 ^ Z.of_nat i)) +:+ " " +:+ unit)%string /\
    100 <= JS.toFixed2 1234567 (1024 ^ Z.of_nat i) <= 102400 /\
    2 * 1024 ^ Z.of_nat i * JS.toFixed2 1234567 (1024 ^ Z.of_nat i)
      <= 200 * 1234567 + 1024 ^ Z.of_nat i
      < 2 * 1024 ^ Z.of_nat i * (JS.toFixed2 1234567 (1024 ^ Z.of_nat i) + 1).
Proof. apply (formatFileSize_scaled 1234567). lia. Defined.

(** X2.  Below 1024 bytes nothing is scaled or rounded: the text is the
    size in decimal followed by " Bytes" (also for one byte). *)
Theorem formatFileSize_bytes (b : Z) :
  0 < b < 1024 ->
  formatFileSize b = (pretty b +:+ " Bytes")%string.
Proof.
  intros [H0 H1]. unfold formatFileSize.
  destruct (Z.eqb_spec b 0) as [|_]; [lia|].
  assert (Hi : JS.floor_log1024 b = 0).
  { unfold JS.floor_log1024.
    assert (Z.log2 b < 10) by (apply Z.log2_lt_pow2; lia).
    pose proof (Z.log2_nonneg b). apply Z.div_small. lia. }
  rewrite Hi. change (1024 ^ 0) with 1.
  assert (Hn : JS.toFixed2 b 1 = 100 * b).
  { unfold JS.toFixed2. symmetry. apply Z.div_unique with (r := 1); lia. }
  rewrite Hn. unfold JS.showHundredths.
  replace (100 * b mod 100) with 0
    by (symmetry; rewrite Z.mul_comm; apply Z.mod_mul; lia).
  replace (100 * b / 100) with b
    by (symmetry; rewrite Z.mul_comm; apply Z.div_mul; lia).
  cbn [Z.eqb]. change (pretty b ++ "")%string with (pretty b +:+ "")%string.
  rewrite append_empty_r. reflexivity.
Qed.

Lemma formatFileSize_bytes_witness :
  formatFileSize 1023 = (pretty 1023 +:+ " Bytes")%string.
Proof. apply (formatFileSize_bytes 1023). lia. Defined.

(** ** Invariants of the pages a user can reach *)

Lemma random_step e w : random (step e w) = random w.
Proof. handle_event e w; reflexivity. Qed.

Lemma reachable_unit_random w : reachable w -> unit_random (random w).
Proof.
  induction 1 as [rnd t0 H|e w _ IH _]; [exact H|].
  by rewrite random_step.
Qed.

Section Delay.
Import Binary64 Binary64Facts AnalysisFacts.

Lemma n2000_nonneg : 0 <= n2000. Proof. vm_compute. discriminate. Qed.
Lemma n3000_nonneg : 0 <= n3000. Proof. vm_compute. discriminate. Qed.
Lemma mul_one_n3000 : mul one n3000 = n3000. Proof. vm_compute. reflexivity. Qed.
Lemma add_n2000_0 : add n2000 0 = n2000. Proof. vm_compute. reflexivity. Qed.
Lemma add_n2000_n3000 : add n2000 n3000 = lit 5000 1.
Proof. vm_compute. reflexivity. Qed.

Lemma delay_range r :
  0 <= r -> r < one ->
  n2000 <= add n2000 (mul r n3000) <= lit 5000 1.
Proof.
  intros H0 H1.
  rewrite <- add_n2000_0 at 1. rewrite <- add_n2000_n3000.
  apply (affine_range n2000 n3000 r);
    [exact n2000_nonneg|exact n3000_nonneg|exact mul_one_n3000|exact H0|exact H1].
Qed.

(** X3.  On every page a user can reach, every parked run waits for a
    delay between the Numbers 2000 and 5000 (milliseconds). *)
Theorem parked_delay_range (w : World) :
  reachable w ->
  Forall (fun a => n2000 <= delay a <= lit 5000 1) (timers w).
Proof.
  induction 1 as [rnd t0 H|e w Hw IH He]; [constructor|].
  pose proof (reachable_unit_random w Hw) as Hrnd.
  revert He IH. handle_event e w; intros He IH; try exact IH.
  - apply Forall_app. split; [exact IH|].
    constructor; [|constructor]. cbn.
    destruct (Hrnd (draws w)) as [[H0 _] H1]. by apply delay_range.
  - by apply Forall_delete.
  - by apply Forall_delete.
Qed.

Lemma parked_delay_range_witness :
  Forall (fun a => n2000 <= delay a <= lit 5000 1) (timers busy_page).
Proof. apply (parked_delay_range busy_page). exact reachable_busy_page. Defined.

End Delay.

(** X4.  The page never runs two analyses at once: on every page a user
    can reach at most one run is parked, the busy flag is up exactly
    while a run is parked, and no result is stored while it is up. *)
Theorem single_flight (w : World) :
  reachable w ->
  (length (timers w) <= 1)%nat /\
  (isAnalyzing (state w) = true <-> timers w <> []) /\
  (isAnalyzing (state w) = true -> result (state w) = None).
Proof.
  induction 1 as [rnd t0 H|e w Hw (IHl & IHb & IHr) He].
  - cbn. split; [lia|]. split; [|discriminate]. split; [discriminate|congruence].
  - revert He. unfold enabled.
    handle_event e w; intros He; try discriminate He;
      try (split; [exact IHl|split; [exact IHb|]]; first [exact IHr|reflexivity]).
    + cbn in He. apply negb_true_iff in He.
      assert (Ht : timers w = []).
      { destruct (timers w) as [|a l] eqn:E; [reflexivity|].
        assert (isAnalyzing (state w) = true) by (apply IHb; discriminate).
        congruence. }
      rewrite Ht. cbn. split; [lia|]. split; [|reflexivity].
      split; [discriminate|reflexivity].
    + assert (Ht : delete k (timers w) = []).
      { destruct (timers w) as [|x [|y l]]; cbn in *; try lia.
        - reflexivity.
        - destruct k; [reflexivity|discriminate]. }
      rewrite Ht. cbn. split; [lia|]. split; [|discriminate].
      split; [discriminate|congruence].
Qed.

Lemma single_flight_witness :
  (length (timers busy_page) <= 1)%nat /\
  (isAnalyzing (state busy_page) = true <-> timers busy_page <> []) /\
  (isAnalyzing (state busy_page) = true -> result (state busy_page) = None).
Proof. apply (single_flight busy_page). exact reachable_busy_page. Defined.

(** X5.  On every page a user can reach, an error shown is one of the
    two validation messages (the analysis message never appears, since
    nothing rejects the awaited promise), and it is shown only while the
    model or the image is missing. *)
Theorem error_only_from_validation (w : World) :
  reachable w ->
  forall msg : string,
    error (state w) = Some msg ->
    validation_message msg /\
    (model (state w) = None \/ image (state w) = None).
Proof.
  induction 1 as [rnd t0 H|e w Hw IH He]; [discriminate|].
  revert He. unfold enabled.
  handle_event e w; intros He msg Hmsg;
    try discriminate He; try discriminate Hmsg;
    try (destruct (IH msg Hmsg) as [Hv Hm]).
  all: try (split; [exact Hv|tauto]).
  - injection Hmsg as <-. apply absent_true in He.
    split; [left; reflexivity|left; exact He].
  - injection Hmsg as <-. apply absent_true in He.
    split; [right; reflexivity|right; exact He].
Qed.

Lemma error_only_from_validation_witness :
  validation_message "Please upload a valid PyTorch model file (.pt)" /\
  (model (state (play [SubmitModel net_txt] fresh_page)) = None \/
   image (state (play [SubmitModel net_txt] fresh_page)) = None).
Proof.
  apply (error_only_from_validation (play [SubmitModel net_txt] fresh_page)).
  - apply reachable_play, reachable_fresh_page.
  - vm_compute. reflexivity.
Defined.

Lemma stored_files_validated_step e w :
  ((forall m, model (state w) = Some m -> model_validated m) /\
   (forall im, image (state w) = Some im -> image_validated im)) ->
  (forall m, model (state (step e w)) = Some m -> model_validated m) /\
  (forall im, image (state (step e w)) = Some im -> image_validated im).
Proof.
  intros [Hm Hi].
  handle_event e w; split; try assumption; try discriminate.
  - intros m [= <-]. split; [|split; reflexivity].
    by apply StringFacts.model_name_accepted.
  - intros im [= <-]. split; [|split; reflexivity].
    by apply StringFacts.image_type_accepted.
Qed.

(** X6.  Whatever the page stores has passed validation: on every page
    a user can reach, a stored model has a name ending in ".pt" (letter
    case ignored), a stored image has a content type beginning with
    "image/", and the name and size shown are the file's name and its
    formatted size. *)
Theorem stored_files_validated (w : World) :
  reachable w ->
  (forall m, model (state w) = Some m -> model_validated m) /\
  (forall im, image (state w) = Some im -> image_validated im).
Proof.
  induction 1 as [rnd t0 H|e w Hw IH He].
  - split; discriminate.
  - by apply stored_files_validated_step.
Qed.

Lemma stored_files_validated_witness :
  (forall m, model (state ready_page) = Some m -> model_validated m) /\
  (forall im, image (state ready_page) = Some im -> image_validated im).
Proof. apply (stored_files_validated ready_page). exact reachable_ready_page. Defined.

Section Shown.
Import Binary64 Binary64Facts AnalysisFacts.

Lemma toFixed1_mono x y : x <= y -> toFixed1 x <= toFixed1 y.
Proof.
  intros H. unfold toFixed1.
  apply Z.div_le_mono; [vm_compute; reflexivity|lia].
Qed.

Lemma n100_nonneg : 0 <= n100. Proof. vm_compute. discriminate. Qed.
Lemma shown_0_75 : toFixed1 (mul n0_75 n100) = 750.
Proof. vm_compute. reflexivity. Qed.
Lemma shown_0_99 : toFixed1 (mul (lit 99 100) n100) = 990.
Proof. vm_compute. reflexivity. Qed.
Lemma shown_1_2 : toFixed1 n1_2 = 12. Proof. vm_compute. reflexivity. Qed.
Lemma shown_3_5 : toFixed1 (lit 35 10) = 35. Proof. vm_compute. reflexivity. Qed.

(** What the results panel prints for a result within the ranges. *)
Lemma shown_range r :
  result_in_range r ->
  750 <= confidenceShown r <= 990 /\ 12 <= processingTimeShown r <= 35.
Proof.
  intros [[Hc0 Hc1] [Hp0 Hp1]].
  pose proof n0_75_nonneg as Hn.
  unfold confidenceShown, processingTimeShown.
  rewrite <- shown_0_75, <- shown_0_99, <- shown_1_2, <- shown_3_5.
  split; split; apply toFixed1_mono.
  - apply mul_mono_l; [exact n100_nonneg|exact n0_75_nonneg|exact Hc0].
  - apply mul_mono_l; [exact n100_nonneg|lia|exact Hc1].
  - exact Hp0.
  - exact Hp1.
Qed.

Lemma drawn_in_range w : unit_random (random w) -> result_in_range (drawn w).
Proof.
  intros Hrnd.
  destruct (Hrnd (S (draws w))) as [[Hc0 _] Hc1].
  destruct (Hrnd (S (S (draws w)))) as [[Hp0 _] Hp1].
  split; cbn [drawn AnalysisResult.confidence AnalysisResult.processingTime].
  - by apply confidence_range.
  - by apply processingTime_range.
Qed.

(** X7.  On every page a user can reach, a stored result is within the
    ranges of [mockResult], and the results panel prints a confidence
    between 75.0% and 99.0% and a processing time between 1.2s and
    3.5s. *)
Theorem stored_result_shown (w : World) :
  reachable w ->
  forall r : AnalysisResult.t,
    result (state w) = Some r ->
    result_in_range r /\
    750 <= confidenceShown r <= 990 /\
    12 <= processingTimeShown r <= 35.
Proof.
  intros Hw.
  assert (Hin : forall r, result (state w) = Some r -> result_in_range r).
  { induction Hw as [rnd t0 H|e w Hw IH He]; [discriminate|].
    pose proof (reachable_unit_random w Hw) as Hrnd.
    revert IH. handle_event e w; intros IH r Hr;
      try discriminate Hr; try (by apply IH).
    injection Hr as <-. by apply drawn_in_range. }
  intros r Hr. split; [by apply Hin|]. by apply shown_range, Hin.
Qed.

Lemma stored_result_shown_witness :
  result_in_range (drawn busy_page) /\
  750 <= confidenceShown (drawn busy_page) <= 990 /\
  12 <= processingTimeShown (drawn busy_page) <= 35.
Proof.
  apply (stored_result_shown orphan_result_page).
  - exact reachable_orphan_result_page.
  - vm_compute. reflexivity.
Defined.

End Shown.

(** ** Object URLs *)

Lemma url_count_step e w :
  enabled e w = true ->
  next_url w = (length (revoked w) + (if absent (image (state w)) then 0 else 1))%nat ->
  next_url (step e w) =
    (length (revoked (step e w)) +
     (if absent (image (state (step e w))) then 0 else 1))%nat.
Proof.
  unfold enabled.
  handle_event e w; intros He IH; try exact IH; try discriminate He.
  - apply absent_true in He. rewrite He in IH. cbn in IH. lia.
  - destruct (image (state w)); [|discriminate He]. cbn in *. lia.
Qed.

(** X8.  On every page a user can reach, every object URL created so
    far is either the one live preview or has been revoked, each once:
    the number created is the number of revocations plus the number of
    live URLs, and at most one URL is alive. *)
Theorem object_url_accounting (w : World) :
  reachable w ->
  next_url w = (length (revoked w) + size (live w))%nat /\
  (size (live w) <= 1)%nat /\
  NoDup (revoked w).
Proof.
  intros Hw.
  assert (Hc : next_url w =
               (length (revoked w) + (if absent (image (state w)) then 0 else 1))%nat).
  { induction Hw as [rnd t0 H|e w Hw IH He]; [reflexivity|].
    by apply url_count_step. }
  destruct (reachable_handles w Hw) as [(Hnd & _) Hleak].
  unfold no_leak in Hleak. rewrite Hleak, Hc.
  destruct (image (state w)) as [im|]; cbn.
  - rewrite size_singleton. repeat split; [lia|exact Hnd].
  - rewrite size_empty. repeat split; [lia|exact Hnd].
Qed.

Lemma object_url_accounting_witness :
  next_url (play [SubmitImage cat_png; ClearImage; SubmitImage dog_jpg] fresh_page) =
    (length (revoked (play [SubmitImage cat_png; ClearImage; SubmitImage dog_jpg] fresh_page)) +
     size (live (play [SubmitImage cat_png; ClearImage; SubmitImage dog_jpg] fresh_page)))%nat /\
  (size (live (play [SubmitImage cat_png; ClearImage; SubmitImage dog_jpg] fresh_page)) <= 1)%nat /\
  NoDup (revoked (play [SubmitImage cat_png; ClearImage; SubmitImage dog_jpg] fresh_page)).
Proof.
  apply (object_url_accounting
           (play [SubmitImage cat_png; ClearImage; SubmitImage dog_jpg] fresh_page)).
  apply reachable_play, reachable_fresh_page.
Defined.

(** X9.  Uploading an image and clearing it again leaves no preview
    behind: from a page a user can reach that offers the image zone, an
    accepted upload followed by the trash button ends with no image, no
    live URL, and the URL the upload created as the latest revocation;
    the model is untouched. *)
Theorem upload_then_clear (file : File.t) (w : World) :
  reachable w ->
  enabled (SubmitImage file) w = true ->
  JS.startsWith (File.type file) "image/" = true ->
  enabled ClearImage (step (SubmitImage file) w) = true /\
  image (state (step ClearImage (step (SubmitImage file) w))) = None /\
  live (step ClearImage (step (SubmitImage file) w)) = ∅ /\
  revoked (step ClearImage (step (SubmitImage file) w)) = next_url w :: revoked w /\
  model (state (step ClearImage (step (SubmitImage file) w))) = model (state w).
Proof.
  intros Hw He Hacc.
  destruct (reachable_handles w Hw) as [_ Hleak].
  unfold no_leak in Hleak. cbn in He. apply absent_true in He.
  rewrite He in Hleak.
  unfold step, enabled. cbn [handle].
  rewrite (exec_handleImageUpload_accepted _ _ Hacc).
  unfold track, with_origin. cbn.
  rewrite exec_clearImage. cbn.
  split; [reflexivity|]. split; [reflexivity|].
  split; [|split; reflexivity].
  rewrite Hleak, union_empty_r_L. apply difference_diag_L.
Qed.

Lemma upload_then_clear_witness :
  enabled ClearImage (step (SubmitImage cat_png) fresh_page) = true /\
  image (state (step ClearImage (step (SubmitImage cat_png) fresh_page))) = None /\
  live (step ClearImage (step (SubmitImage cat_png) fresh_page)) = ∅ /\
  revoked (step ClearImage (step (SubmitImage cat_png) fresh_page)) =
    next_url fresh_page :: revoked fresh_page /\
  model (state (step ClearImage (step (SubmitImage cat_png) fresh_page))) =
    model (state fresh_page).
Proof.
  apply (upload_then_clear cat_png fresh_page).
  - exact reachable_fresh_page.
  - vm_compute. reflexivity.
  - vm_compute. reflexivity.
Defined.

(** ** Clearing a file while a run is parked *)

(** X10.  A run parked before the model is cleared still stores its
    result when its promise is fulfilled: the page then holds a result
    and no model, with the busy flag down.  The same holds for the
    image. *)
Theorem result_survives_clear (w : World) (k : nat) (a : Analysis) :
  timers w !! k = Some a ->
  (model (state (step (Settle k Fulfilled) (step ClearModel w))) = None /\
   result (state (step (Settle k Fulfilled) (step ClearModel w))) = Some (drawn w) /\
   isAnalyzing (state (step (Settle k Fulfilled) (step ClearModel w))) = false) /\
  (image (state (step (Settle k Fulfilled) (step ClearImage w))) = None /\
   result (state (step (Settle k Fulfilled) (step ClearImage w))) = Some (drawn w) /\
   isAnalyzing (state (step (Settle k Fulfilled) (step ClearImage w))) = false).
Proof.
  intros Hk. split.
  - unfold step at 2 4 6. cbn [handle]. rewrite exec_clearModel.
    unfold track, with_origin. cbn.
    unfold step. cbn [handle timers]. rewrite Hk.
    rewrite exec_resumeAnalysis_fulfilled. cbn. auto.
  - unfold step at 2 4 6. cbn [handle]. rewrite exec_clearImage.
    unfold track, with_origin. cbn.
    unfold step. cbn [handle timers]. rewrite Hk.
    rewrite exec_resumeAnalysis_fulfilled. cbn. auto.
Qed.

Lemma result_survives_clear_witness :
  (model (state (step (Settle 0 Fulfilled) (step ClearModel busy_page))) = None /\
   result (state (step (Settle 0 Fulfilled) (step ClearModel busy_page))) =
     Some (drawn busy_page) /\
   isAnalyzing (state (step (Settle 0 Fulfilled) (step ClearModel busy_page))) = false) /\
  (image (state (step (Settle 0 Fulfilled) (step ClearImage busy_page))) = None /\
   result (state (step (Settle 0 Fulfilled) (step ClearImage busy_page))) =
     Some (drawn busy_page) /\
   isAnalyzing (state (step (Settle 0 Fulfilled) (step ClearImage busy_page))) = false).
Proof.
  refine (result_survives_clear busy_page 0
            {| delay := Binary64.add n2000 (Binary64.mul n0_5 n3000);
               seen_model := model (state ready_page);
               seen_image := image (state ready_page) |} _).
  vm_compute. reflexivity.
Defined.

(** ** Dropping files *)

(** X11.  A drop always removes the drag highlight and never touches
    the busy flag, the result's producer or the parked runs; a drop that
    carries no file changes nothing else; a drop on the model zone never
    changes the image or an object URL, and a drop on the image zone
    never changes the model.  Only the first file of a drop is looked
    at. *)
Theorem handleDrop_frame (files : list File.t) (type : zone) (p : Page) :
  dragOver (handleDrop files type p) = None /\
  isAnalyzing (state (world (handleDrop files type p))) = isAnalyzing (state (world p)) /\
  timers (world (handleDrop files type p)) = timers (world p) /\
  revoked (world (handleDrop files type p)) = revoked (world p) /\
  (files = [] -> world (handleDrop files type p) = world p) /\
  (type = ModelZone ->
   image (state (world (handleDrop files type p))) = image (state (world p)) /\
   live (world (handleDrop files type p)) = live (world p) /\
   next_url (world (handleDrop files type p)) = next_url (world p)) /\
  (type = ImageZone ->
   model (state (world (handleDrop files type p))) = model (state (world p))) /\
  handleDrop files type p = handleDrop (take 1 files) type p.
Proof.
  split; [reflexivity|].
  destruct files as [|file rest]; cbn [handleDrop world take].
  - repeat split; reflexivity.
  - destruct type.
    + destruct (JS.endsWith (JS.toLowerCase (File.name file)) ".pt") eqn:E.
      * rewrite (exec_handleModelUpload_accepted _ _ E). cbn.
        repeat split; try reflexivity; discriminate.
      * rewrite (exec_handleModelUpload_rejected _ _ E), exec_setError. cbn.
        repeat split; try reflexivity; discriminate.
    + destruct (JS.startsWith (File.type file) "image/") eqn:E.
      * rewrite (exec_handleImageUpload_accepted _ _ E). cbn.
        repeat split; try reflexivity; discriminate.
      * rewrite (exec_handleImageUpload_rejected _ _ E), exec_setError. cbn.
        repeat split; try reflexivity; discriminate.
Qed.

(** ** One analysis, from the click to the result *)

(** X12.  Whenever the page enables the analysis button, a click parks
    exactly one run, and when its timer fires the page holds a result,
    the busy flag is down, no run is parked, the files are the ones
    that were stored at the click, no error is shown, and the button is
    enabled again. *)
Theorem analysis_round_trip (w : World) :
  reachable w ->
  enabled ClickAnalyze w = true ->
  timers (step ClickAnalyze w) =
    [{| delay := Binary64.add n2000 (Binary64.mul (random w (draws w)) n3000);
        seen_model := model (state w);
        seen_image := image (state w) |}] /\
  enabled (Settle 0 Fulfilled) (step ClickAnalyze w) = true /\
  result (state (step (Settle 0 Fulfilled) (step ClickAnalyze w))) =
    Some (drawn (step ClickAnalyze w)) /\
  isAnalyzing (state (step (Settle 0 Fulfilled) (step ClickAnalyze w))) = false /\
  timers (step (Settle 0 Fulfilled) (step ClickAnalyze w)) = [] /\
  model (state (step (Settle 0 Fulfilled) (step ClickAnalyze w))) = model (state w) /\
  image (state (step (Settle 0 Fulfilled) (step ClickAnalyze w))) = image (state w) /\
  error (state (step (Settle 0 Fulfilled) (step ClickAnalyze w))) = None /\
  enabled ClickAnalyze (step (Settle 0 Fulfilled) (step ClickAnalyze w)) = true.
Proof.
  intros Hw He.
  destruct (reachable_busy_window w Hw) as (_ & Hb & _).
  unfold enabled in He. apply negb_true_iff in He.
  apply orb_false_elim in He as [Hg Hbusy].
  assert (Ht : timers w = []).
  { destruct (timers w) as [|a l] eqn:E; [reflexivity|].
    assert (isAnalyzing (state w) = true) by (apply Hb; discriminate).
    congruence. }
  assert (Hs : step ClickAnalyze w =
    {| state := {| model := model (state w); image := image (state w);
                   isAnalyzing := true; result := None; error := None |};
       live := live w; revoked := revoked w; next_url := next_url w;
       timers :=
         [{| delay := Binary64.add n2000 (Binary64.mul (random w (draws w)) n3000);
             seen_model := model (state w);
             seen_image := image (state w) |}];
       random := random w; draws := S (draws w); clock := clock w;
       origin := None |}).
  { unfold step. cbn [handle]. rewrite (exec_runAnalysis_started _ Hg).
    unfold track, with_origin. cbn. rewrite Ht. reflexivity. }
  rewrite Hs. split; [reflexivity|]. split; [reflexivity|].
  unfold step. cbn [handle timers lookup list_lookup].
  rewrite exec_resumeAnalysis_fulfilled.
  unfold track, with_origin, with_timers, enabled. cbn.
  apply orb_false_elim in Hg as [Hm Hi]. rewrite Hm, Hi.
  repeat split; reflexivity.
Qed.

Lemma analysis_round_trip_witness :
  timers (step ClickAnalyze ready_page) =
    [{| delay := Binary64.add n2000
                   (Binary64.mul (random ready_page (draws ready_page)) n3000);
        seen_model := model (state ready_page);
        seen_image := image (state ready_page) |}] /\
  enabled (Settle 0 Fulfilled) (step ClickAnalyze ready_page) = true /\
  result (state (step (Settle 0 Fulfilled) (step ClickAnalyze ready_page))) =
    Some (drawn (step ClickAnalyze ready_page)) /\
  isAnalyzing (state (step (Settle 0 Fulfilled) (step ClickAnalyze ready_page))) = false /\
  timers (step (Settle 0 Fulfilled) (step ClickAnalyze ready_page)) = [] /\
  model (state (step (Settle 0 Fulfilled) (step ClickAnalyze ready_page))) =
    model (state ready_page) /\
  image (state (step (Settle 0 Fulfilled) (step ClickAnalyze ready_page))) =
    image (state ready_page) /\
  error (state (step (Settle 0 Fulfilled) (step ClickAnalyze ready_page))) = None /\
  enabled ClickAnalyze (step (Settle 0 Fulfilled) (step ClickAnalyze ready_page)) = true.
Proof.
  apply (analysis_round_trip ready_page).
  - exact reachable_ready_page.
  - vm_compute. reflexivity.
Defined.
